(** * File monitor service (main.py): store, queue, event filter and worker

    A shallow embedding of [main.py].  The service watches a directory,
    filters file-system events by name, checks that a file has stopped
    growing, hands its path to a queue, and a single worker thread counts
    lines and words and records the outcome in the SQLite table [files].

    Conventions of the embedding.
    - Python [str] is [string]; a character is a code point below 256.
    - Python [int] is [Z]; [None] in an optional position is [None].
    - A call that may raise returns [py_result]; [try]/[except] is a match
      on it.
    - Module-level objects ([file_queue], the database file) are the two
      components of [State], passed explicitly.
    - The outside world (file sizes, file contents, the wall clock) is a
      time-indexed record [World]; every handler and every pass through
      the worker's loop body is entered at some time [t].
    - Logging has no effect on the queue or the table and is left out.
    - Storage failures of SQLite other than a constraint violation (disk
      errors, row id exhaustion) are outside the model.
    - [sqlite3] binds only integers of 64 bits.  [last_files] models the
      [OverflowError] for its limit; for the integers given to
      [inserting] the statements carry [fits_int64] as a hypothesis
      wherever those integers are free. *)

From Stdlib Require Import ZArith List String Ascii Bool Lia Sorted Permutation.
Import ListNotations.
Open Scope string_scope.
Open Scope Z_scope.
Open Scope list_scope.

(** ** Exceptions *)

Inductive ExcType :=
| OSError | TypeError | ValueError | UnicodeError
| IntegrityError | OverflowError | Empty.

Record exn := { exn_type : ExcType; exn_str : string }.

Inductive py_result (A : Type) :=
| Returns (a : A)
| Raises (e : exn).
Arguments Returns {A} a.
Arguments Raises {A} e.

Definition is_OSError (e : exn) : bool :=
  match exn_type e with OSError => true | _ => false end.

Definition is_IntegrityError (e : exn) : bool :=
  match exn_type e with IntegrityError => true | _ => false end.

Definition is_Empty (e : exn) : bool :=
  match exn_type e with Empty => true | _ => false end.

(** ** Strings: [os.path.basename], [re.match], [str.split], [readlines] *)

Definition LF : ascii := ascii_of_nat 10.
Definition CR : ascii := ascii_of_nat 13.
Definition slash : ascii := ascii_of_nat 47.

(** [posixpath.basename]: [p[p.rfind('/') + 1:]]. *)
Fixpoint basename_from (p cur : string) : string :=
  match p with
  | EmptyString => cur
  | String c r =>
      if Ascii.eqb c slash then basename_from r EmptyString
      else basename_from r (cur ++ String c EmptyString)%string
  end.

Definition basename (p : string) : string := basename_from p EmptyString.

(** [\d] on code points below 256: the ten ASCII digits.  The other
    decimal digits of Unicode, which [\d] matches as well, lie above
    U+00FF and are outside the strings of this model. *)
Definition is_digit (c : ascii) : bool :=
  let n := nat_of_ascii c in (48 <=? n)%nat && (n <=? 57)%nat.

(** A regex item consumes a prefix and returns the remainder. *)
Fixpoint re_literal (lit s : string) : option string :=
  match lit with
  | EmptyString => Some s
  | String a lit' =>
      match s with
      | EmptyString => None
      | String c s' => if Ascii.eqb a c then re_literal lit' s' else None
      end
  end.

Fixpoint skip_digits (s : string) : string :=
  match s with
  | EmptyString => EmptyString
  | String c r => if is_digit c then skip_digits r else s
  end.

(** [\d+]: at least one digit, then greedily the rest.  The item after it
    is the literal ['.'], not a digit, so no shorter run can match. *)
Definition re_digits1 (s : string) : option string :=
  match s with
  | EmptyString => None
  | String c r => if is_digit c then Some (skip_digits r) else None
  end.

(** [$] without [re.MULTILINE]: at the end of the string, or just before
    a newline that is the last character. *)
Definition re_dollar (s : string) : bool :=
  match s with
  | EmptyString => true
  | String c EmptyString => Ascii.eqb c LF
  | _ => false
  end.

(** [re.match(r'^test_\d+\.txt$', s)] as a truth value. *)
Definition re_match_test (s : string) : bool :=
  match re_literal "test_" s with
  | None => false
  | Some r1 =>
      match re_digits1 r1 with
      | None => false
      | Some r2 =>
          match re_literal ".txt" r2 with
          | None => false
          | Some r3 => re_dollar r3
          end
      end
  end.

(** [str.isspace] on code points below 256. *)
Definition isspace (c : ascii) : bool :=
  let n := nat_of_ascii c in
  ((9 <=? n)%nat && (n <=? 13)%nat) || ((28 <=? n)%nat && (n <=? 32)%nat)
  || (n =? 133)%nat || (n =? 160)%nat.

Definition is_empty (s : string) : bool :=
  match s with EmptyString => true | _ => false end.

(** [s.split()]: maximal runs of non-whitespace characters. *)
Fixpoint split_from (s cur : string) : list string :=
  match s with
  | EmptyString => if is_empty cur then [] else [cur]
  | String c r =>
      if isspace c
      then (if is_empty cur then split_from r EmptyString
            else cur :: split_from r EmptyString)
      else split_from r (cur ++ String c EmptyString)%string
  end.

Definition split (s : string) : list string := split_from s EmptyString.

(** Universal newlines of a text file opened with [newline=None]:
    ["\r\n"] and a lone ["\r"] are read as ["\n"]. *)
Fixpoint translate_newlines (s : string) : string :=
  match s with
  | EmptyString => EmptyString
  | String c r =>
      if Ascii.eqb c CR then
        match r with
        | String c' r' =>
            if Ascii.eqb c' LF then String LF (translate_newlines r')
            else String LF (translate_newlines r)
        | EmptyString => String LF EmptyString
        end
      else String c (translate_newlines r)
  end.

(** The lines of a text, each keeping its ["\n"]; a last line without a
    newline is a line too. *)
Fixpoint lines_from (s cur : string) : list string :=
  match s with
  | EmptyString => if is_empty cur then [] else [cur]
  | String c r =>
      if Ascii.eqb c LF
      then (cur ++ String LF EmptyString)%string :: lines_from r EmptyString
      else lines_from r (cur ++ String c EmptyString)%string
  end.

(** A text file object: what is left to read from the current position. *)
Record TextIO := { remaining : string }.

(** [f.readlines()] returns the lines up to the end of the file and
    leaves the position there. *)
Definition readlines (f : TextIO) : list string * TextIO :=
  (lines_from (remaining f) EmptyString, {| remaining := EmptyString |}).

(** [f.read()] returns everything from the current position on. *)
Definition read (f : TextIO) : string * TextIO :=
  (remaining f, {| remaining := EmptyString |}).

(** The body of the worker's [with] statement on the open file [f]:
    [lines = len(f.readlines())], then
    [word_count = len(f.read().split())] on the same file object. *)
Definition count_text (f : TextIO) : Z * Z :=
  let (ls, f1) := readlines f in
  let (s, _) := read f1 in
  (Z.of_nat (List.length ls), Z.of_nat (List.length (split s))).

(** ** [queue.Queue()] *)

(** The entries are Python objects: a path, or [None]. *)
Record Queue := {
  items : list (option string);
  unfinished_tasks : Z
}.

Definition empty_queue : Queue := {| items := []; unfinished_tasks := 0 |}.

Definition put (x : option string) (q : Queue) : Queue :=
  {| items := items q ++ [x]; unfinished_tasks := unfinished_tasks q + 1 |}.

(** [get(timeout=5)]: the oldest entry, or [queue.Empty] once the timeout
    has passed with nothing to take. *)
Definition get (q : Queue) : py_result (option string * Queue) :=
  match items q with
  | [] => Raises {| exn_type := Empty; exn_str := "" |}
  | x :: rest =>
      Returns (x, {| items := rest; unfinished_tasks := unfinished_tasks q |})
  end.

Definition task_done (q : Queue) : py_result Queue :=
  let unfinished := unfinished_tasks q - 1 in
  if unfinished <? 0
  then Raises {| exn_type := ValueError;
                 exn_str := "task_done() called too many times" |}
  else Returns {| items := items q; unfinished_tasks := unfinished |}.

Definition qsize (q : Queue) : Z := Z.of_nat (List.length (items q)).

(** ** The table [files] *)

(** One row of [files].  Every column but [id] may hold NULL in the
    schema; [status] is always bound to a Python [str]. *)
Record Row := {
  id : Z;
  path : option string;
  status : string;
  lines : option Z;
  word_count : option Z;
  error : option string;
  created_at : option string;
  processed_at : option string
}.

(** The database file [files.db]: the rows of [files] in the order they
    were inserted, the AUTOINCREMENT counter kept in [sqlite_sequence],
    and whether column [path] carries a UNIQUE constraint. *)
Record Database := {
  unique_path : bool;
  files_rows : list Row;
  seq : Z
}.

(** [init_database]: [CREATE TABLE IF NOT EXISTS files (...)].  The
    statement declares [id INTEGER PRIMARY KEY AUTOINCREMENT] and no
    constraint on any other column; a table that is already there is
    left as it is. *)
Definition init_database (existing : option Database) : Database :=
  match existing with
  | Some d => d
  | None => {| unique_path := false; files_rows := []; seq := 0 |}
  end.

(** SQL [=] on nullable text: a comparison with NULL is not true. *)
Definition sql_eq (a b : option string) : bool :=
  match a, b with
  | Some x, Some y => String.eqb x y
  | _, _ => false
  end.

Definition max_rowid (rs : list Row) : Z := fold_right Z.max 0 (map id rs).

(** [INSERT INTO files (path, status, lines, word_count, error,
    created_at, processed_at) VALUES (?, ?, ?, ?, ?, ?, ?)].  The new id
    is one more than the largest id the table has ever held.  The two
    integers are taken to be ones [sqlite3] can bind (64 bits): for any
    other [cursor.execute] raises [OverflowError] and the statement is
    not run, which is not modelled here. *)
Definition insert_files (p : option string) (st : string)
    (ln wc : option Z) (err cr pr : option string) (d : Database)
  : py_result Database :=
  let r := {| id := Z.max (seq d) (max_rowid (files_rows d)) + 1;
              path := p; status := st; lines := ln; word_count := wc;
              error := err; created_at := cr; processed_at := pr |} in
  if unique_path d && existsb (fun r' => sql_eq (path r') p) (files_rows d)
  then Raises {| exn_type := IntegrityError;
                 exn_str := "UNIQUE constraint failed: files.path" |}
  else Returns {| unique_path := unique_path d;
                  files_rows := files_rows d ++ [r];
                  seq := id r |}.

(** [UPDATE files SET status = ?, lines = ?, word_count = ?, error = ?,
    processed_at = ? WHERE path = ?]. *)
Definition update_row (st : string) (ln wc : option Z)
    (err pr : option string) (p : option string) (r : Row) : Row :=
  if sql_eq (path r) p
  then {| id := id r; path := path r; status := st; lines := ln;
          word_count := wc; error := err; created_at := created_at r;
          processed_at := pr |}
  else r.

Definition update_files (st : string) (ln wc : option Z)
    (err pr : option string) (p : option string) (d : Database) : Database :=
  {| unique_path := unique_path d;
     files_rows := map (update_row st ln wc err pr p) (files_rows d);
     seq := seq d |}.

(** [now if status == "OK" else None], the last value bound by both
    statements of [inserting]. *)
Definition processed_value (now st : string) : option string :=
  if String.eqb st "OK" then Some now else None.

(** [inserting(path, status, lines, word_count, error)]; [now] is the
    value of [datetime.now().isoformat()] at the call. *)
Definition inserting (now : string) (p : option string) (st : string)
    (ln wc : option Z) (err : option string) (d : Database)
  : py_result Database :=
  match insert_files p st ln wc err (Some now) (processed_value now st) d with
  | Returns d' => Returns d'
  | Raises e =>
      if is_IntegrityError e
      then Returns (update_files st ln wc err (processed_value now st) p d)
      else Raises e
  end.

(** A call of [inserting] with the time it is made at, and a sequence of
    such calls made one after the other. *)
Record Call := {
  call_now : string;
  call_path : option string;
  call_status : string;
  call_lines : option Z;
  call_word_count : option Z;
  call_error : option string
}.

Definition inserting_call (c : Call) (d : Database) : py_result Database :=
  inserting (call_now c) (call_path c) (call_status c) (call_lines c)
    (call_word_count c) (call_error c) d.

Fixpoint inserting_calls (cs : list Call) (d : Database)
  : py_result Database :=
  match cs with
  | [] => Returns d
  | c :: rest =>
      match inserting_call c d with
      | Returns d' => inserting_calls rest d'
      | Raises e => Raises e
      end
  end.

(** Python values found in the dictionaries [last_files] returns. *)
Inductive PyVal :=
| PyNone
| PyInt (n : Z)
| PyStr (s : string).

Definition of_text (o : option string) : PyVal :=
  match o with Some s => PyStr s | None => PyNone end.

Definition of_integer (o : option Z) : PyVal :=
  match o with Some n => PyInt n | None => PyNone end.

Definition Dict := list (string * PyVal).

Definition row_dict (r : Row) : Dict :=
  [ ("path", of_text (path r));
    ("status", PyStr (status r));
    ("lines", of_integer (lines r));
    ("word_count", of_integer (word_count r));
    ("error", of_text (error r));
    ("created_at", of_text (created_at r));
    ("processed_at", of_text (processed_at r)) ].

(** [ORDER BY id DESC]: insertion into a list kept in descending order
    of [id]. *)
Fixpoint insert_desc (r : Row) (sorted : list Row) : list Row :=
  match sorted with
  | [] => [r]
  | r' :: rest =>
      if id r' <=? id r then r :: sorted else r' :: insert_desc r rest
  end.

Definition order_by_id_desc (rs : list Row) : list Row :=
  fold_right insert_desc [] rs.

(** [LIMIT ?]: a negative limit puts no bound on the number of rows. *)
Definition sql_limit (limit : Z) (rs : list Row) : list Row :=
  if limit <? 0 then rs else firstn (Z.to_nat limit) rs.

(** [last_files(limit)].  A Python [int] that does not fit SQLite's
    64-bit INTEGER cannot be bound to the [?]. *)
Definition last_files (limit : Z) (d : Database) : py_result (list Dict) :=
  if (limit <? - 2 ^ 63) || (2 ^ 63 <=? limit)
  then Raises {| exn_type := OverflowError;
                 exn_str := "Python int too large to convert to SQLite INTEGER" |}
  else Returns (map row_dict
                  (sql_limit limit (order_by_id_desc (files_rows d)))).

(** The three keys of the dictionary [stats()] returns. *)
Record Counts := { total : Z; ok : Z; failed : Z }.

Definition count_status (st : string) (rs : list Row) : Z :=
  Z.of_nat (List.length (filter (fun r => String.eqb (status r) st) rs)).

(** [stats()].  In [WHERE status = "OK"] the double-quoted word names no
    column of the table, so SQLite reads it as the string ['OK']. *)
Definition stats (d : Database) : Counts :=
  {| total := Z.of_nat (List.length (files_rows d));
     ok := count_status "OK" (files_rows d);
     failed := count_status "FAILED" (files_rows d) |}.

(** ** The outside world *)

Record World := {
  (** [os.path.getsize(path)] called at time [t] *)
  getsize : Z -> string -> py_result Z;
  (** the text of [path] as [open(path, 'r', encoding='utf-8')] and the
      reads that follow decode it at time [t], or what they raise *)
  read_text : Z -> string -> py_result string;
  (** [datetime.now().isoformat()] at time [t] *)
  isoformat_now : Z -> string
}.

(** ** [ObserverWard] *)

Record FileSystemEvent := {
  is_directory : bool;
  src_path : string;
  dest_path : string
}.

Section Service.

Variable w : World.

(** [try_size], entered at time [t]; [time.sleep(2)] puts the second
    measurement at [t + 2].  Only [OSError] is caught. *)
Definition try_size (t : Z) (p : string) (q : Queue) : py_result Queue :=
  if negb (re_match_test (basename p)) then Returns q
  else
    match getsize w t p with
    | Raises e => if is_OSError e then Returns q else Raises e
    | Returns start_size =>
        match getsize w (t + 2) p with
        | Raises e => if is_OSError e then Returns q else Raises e
        | Returns end_size =>
            if negb (start_size =? end_size) then Returns q
            else Returns (put (Some p) q)
        end
    end.

Definition on_created (t : Z) (event : FileSystemEvent) (q : Queue)
  : py_result Queue :=
  if negb (is_directory event) then try_size t (src_path event) q
  else Returns q.

Definition on_deleted (t : Z) (event : FileSystemEvent) (q : Queue)
  : py_result Queue :=
  Returns q.

Definition on_moved (t : Z) (event : FileSystemEvent) (q : Queue)
  : py_result Queue :=
  if negb (is_directory event) then try_size t (dest_path event) q
  else Returns q.

(** ** The worker *)

(** [open(path, 'r', encoding='utf-8')]: [None] is not a path. *)
Definition open_text (t : Z) (p : option string) : py_result TextIO :=
  match p with
  | None =>
      Raises {| exn_type := TypeError;
                exn_str := "expected str, bytes or os.PathLike object, not NoneType" |}
  | Some name =>
      match read_text w t name with
      | Raises e => Raises e
      | Returns s => Returns {| remaining := translate_newlines s |}
      end
  end.

(** The [with open(...) as f] statement of the worker. *)
Definition count_file (t : Z) (p : option string) : py_result (Z * Z) :=
  match open_text t p with
  | Raises e => Raises e
  | Returns f => Returns (count_text f)
  end.

Record State := { file_queue : Queue; db : Database }.

Inductive LoopStep :=
| Continue (s : State)
| Break (s : State).

(** The inner [try]/[except Exception as e] of the loop body. *)
Definition process (t : Z) (p : option string) (d : Database)
  : py_result Database :=
  let now := isoformat_now w t in
  let on_error (e : exn) :=
    inserting now p "FAILED" None None (Some (exn_str e)) d in
  match count_file t p with
  | Raises e => on_error e
  | Returns (ln, wc) =>
      match inserting now p "OK" (Some ln) (Some wc) None d with
      | Returns d' => Returns d'
      | Raises e => on_error e
      end
  end.

(** One pass through the body of [while True], entered at time [t].
    Every path through the body ends in [continue] or falls off its
    end. *)
Definition worker_body (t : Z) (s : State) : LoopStep :=
  match get (file_queue s) with
  | Raises e => Continue s
  | Returns (p, q) =>
      match process t p (db s) with
      | Raises e => Continue {| file_queue := q; db := db s |}
      | Returns d' =>
          match task_done q with
          | Returns q' => Continue {| file_queue := q'; db := d' |}
          | Raises e => Continue {| file_queue := q; db := d' |}
          end
      end
  end.

(** [worker()]: the passes of the loop entered at the times [ticks].
    [Break] is a loop that has been left, [Continue] one that is still
    running after these passes. *)
Fixpoint worker (ticks : list Z) (s : State) : LoopStep :=
  match ticks with
  | [] => Continue s
  | t :: rest =>
      match worker_body t s with
      | Continue s' => worker rest s'
      | Break s' => Break s'
      end
  end.

(** ** The service as a whole *)

(** What can happen to the running service: the observer delivers an
    event, the worker makes one pass, or the [KeyboardInterrupt]
    handler of the main block runs [file_queue.put(None)]. *)
Inductive Action :=
| Created (t : Z) (event : FileSystemEvent)
| Deleted (t : Z) (event : FileSystemEvent)
| Moved (t : Z) (event : FileSystemEvent)
| WorkerPass (t : Z)
| Interrupt.

(** An exception that leaves a handler is the observer thread's
    affair; the queue is as it was. *)
Definition deliver (r : py_result Queue) (s : State) : State :=
  match r with
  | Returns q => {| file_queue := q; db := db s |}
  | Raises _ => s
  end.

Definition step (s : State) (a : Action) : State :=
  match a with
  | Created t event => deliver (on_created t event (file_queue s)) s
  | Deleted t event => deliver (on_deleted t event (file_queue s)) s
  | Moved t event => deliver (on_moved t event (file_queue s)) s
  | WorkerPass t =>
      match worker_body t s with Continue s' => s' | Break s' => s' end
  | Interrupt => {| file_queue := put None (file_queue s); db := db s |}
  end.

Definition run (acts : list Action) (s : State) : State :=
  fold_left step acts s.

End Service.

Definition initial_state : State :=
  {| file_queue := empty_queue; db := init_database None |}.

(** [GET /stats] and [GET /files]. *)
Definition set_stats (s : State) : Counts * Z :=
  (stats (db s), qsize (file_queue s)).

Definition files (s : State) : py_result (list Dict) :=
  last_files 20 (db s).

(** ** The file name pattern in the words of the specification *)

(** [test_<digits>.txt]: the literal prefix [test_], one or more decimal
    digits, the literal suffix [.txt], and nothing else. *)
Definition test_digits_txt (name : string) : bool :=
  match re_literal "test_" name with
  | None => false
  | Some r1 =>
      match re_digits1 r1 with
      | None => false
      | Some r2 => String.eqb r2 ".txt"
      end
  end.

(** The rows of the table that belong to path [p]. *)
Definition rows_for (p : string) (d : Database) : list Row :=
  filter (fun r => sql_eq (path r) (Some p)) (files_rows d).

(** The record a call of [inserting] asks the store to hold, as
    [last_files] would show it. *)
Definition call_dict (c : Call) : Dict :=
  [ ("path", of_text (call_path c));
    ("status", PyStr (call_status c));
    ("lines", of_integer (call_lines c));
    ("word_count", of_integer (call_word_count c));
    ("error", of_text (call_error c));
    ("created_at", PyStr (call_now c));
    ("processed_at", of_text (processed_value (call_now c) (call_status c))) ].

(** The new table after the calls [cs]. *)
Definition table_after (cs : list Call) : Database :=
  match inserting_calls cs (init_database None) with
  | Returns d => d
  | Raises _ => init_database None
  end.


(** ** Scenarios *)

Definition nl : string := String LF EmptyString.

(** A world in which every file holds [content] and does not change. *)
Definition settled_world (content : string) : World :=
  {| getsize := fun _ _ => Returns (Z.of_nat (String.length content));
     read_text := fun _ _ => Returns content;
     isoformat_now := fun _ => "2024-05-01T10:00:03.000000" |}.

(** A world in which every file grows by one byte a second. *)
Definition growing_world : World :=
  {| getsize := fun t _ => Returns (10 + t);
     read_text := fun _ _ => Returns "";
     isoformat_now := fun _ => "2024-05-01T10:00:03.000000" |}.


(** A path in the watched directory whose base name is [test_1.txt]
    followed by a newline character. *)
Definition newline_name : string := ("/watch/test_1.txt" ++ nl)%string.

(** The content of [test_1.txt] in the first scenario. *)
Definition scenario_text : string := ("a b" ++ nl ++ "c" ++ nl)%string.

Definition file_event (p : string) : FileSystemEvent :=
  {| is_directory := false; src_path := p; dest_path := p |}.

(** ** Predicates and tables used in the statements *)

(** What the UPDATE statement may do to one row: [id], [path] and
    [created_at] stay; a row of another path stays altogether; a row of
    the path gets the five new values. *)
Definition updated_from (st : string) (ln wc : option Z)
    (err pr : option string) (p : option string) (r r' : Row) : Prop :=
  id r' = id r /\ path r' = path r /\ created_at r' = created_at r /\
  (sql_eq (path r) p = false -> r' = r) /\
  (sql_eq (path r) p = true ->
   status r' = st /\ lines r' = ln /\ word_count r' = wc /\
   error r' = err /\ processed_at r' = pr).

(** A table with a UNIQUE [path] that already holds a row for
    [test_1.txt], written when a first attempt failed. *)
Definition unique_table_one_row : Database :=
  {| unique_path := true;
     files_rows :=
       [{| id := 1; path := Some "test_1.txt"; status := "FAILED";
           lines := None; word_count := None; error := Some "gone";
           created_at := Some "2024-05-01T10:00:03.000000";
           processed_at := None |};
        {| id := 2; path := Some "test_2.txt"; status := "OK";
           lines := Some 1; word_count := Some 0; error := None;
           created_at := Some "2024-05-01T10:00:04.000000";
           processed_at := Some "2024-05-01T10:00:04.000000" |}];
     seq := 2 |}.

Definition ok_or_failed (st : string) : Prop := st = "OK" \/ st = "FAILED".

Definition three_calls : list Call :=
  [ {| call_now := "2024-05-01T10:00:03.000000";
       call_path := Some "test_1.txt"; call_status := "OK";
       call_lines := Some 2; call_word_count := Some 0;
       call_error := None |};
    {| call_now := "2024-05-01T10:00:07.000000";
       call_path := Some "test_3.txt"; call_status := "FAILED";
       call_lines := None; call_word_count := None;
       call_error := Some "[Errno 2] No such file or directory" |};
    {| call_now := "2024-05-01T10:00:09.000000";
       call_path := Some "test_1.txt"; call_status := "OK";
       call_lines := Some 3; call_word_count := Some 0;
       call_error := None |} ].

(** The rows stand in ascending order of [id]. *)
Definition ascending (rs : list Row) : Prop :=
  StronglySorted (fun a b => id a < id b) rs.

(** An entry is the shutdown value [None] or a path whose base name the
    regular expression of [try_size] accepts. *)
Definition passes_filter (o : option string) : Prop :=
  match o with
  | None => True
  | Some p => re_match_test (basename p) = true
  end.

Definition filtered (s : State) : Prop :=
  Forall passes_filter (items (file_queue s)) /\
  Forall (fun r => passes_filter (path r)) (files_rows (db s)).


(** ** Predicates on strings used in the statements *)

(** Every character of [s] satisfies [f]. *)
Fixpoint string_forall (f : ascii -> bool) (s : string) : bool :=
  match s with
  | EmptyString => true
  | String c r => f c && string_forall f r
  end.

Definition no_slash (s : string) : bool :=
  string_forall (fun c => negb (Ascii.eqb c slash)) s.

Definition all_digits (s : string) : bool := string_forall is_digit s.

Definition no_cr (s : string) : bool :=
  string_forall (fun c => negb (Ascii.eqb c CR)) s.

Definition no_space (s : string) : bool :=
  string_forall (fun c => negb (isspace c)) s.

Definition all_space (s : string) : bool := string_forall isspace s.

(** The number of newline characters of [s]. *)
Fixpoint count_lf (s : string) : nat :=
  match s with
  | EmptyString => 0%nat
  | String c r => ((if Ascii.eqb c LF then 1 else 0) + count_lf r)%nat
  end.

(** The last character of [s] is a newline. *)
Fixpoint ends_with_lf (s : string) : bool :=
  match s with
  | EmptyString => false
  | String c EmptyString => Ascii.eqb c LF
  | String _ r => ends_with_lf r
  end.

(** The strings of a list put one after the other. *)
Definition join (ls : list string) : string :=
  fold_right String.append EmptyString ls.

(** ** Predicates on the service used in the statements *)

(** The actions that come from the observer thread. *)
Definition is_observer_event (a : Action) : bool :=
  match a with
  | Created _ _ | Deleted _ _ | Moved _ _ => true
  | WorkerPass _ | Interrupt => false
  end.

(** A queue entry the event handlers can have put: a path whose base
    name the regular expression accepts. *)
Definition accepted_entry (o : option string) : Prop :=
  exists p, o = Some p /\ re_match_test (basename p) = true.

(** The two kinds of row the worker writes: a success with its counts
    and the time of processing, or a failure with its message. *)
Definition record_shape (r : Row) : Prop :=
  created_at r <> None /\
  ((status r = "OK" /\ (exists n, lines r = Some (Z.of_nat n)) /\
    word_count r = Some 0 /\ error r = None /\
    processed_at r = created_at r) \/
   (status r = "FAILED" /\ lines r = None /\ word_count r = None /\
    error r <> None /\ processed_at r = None)).

(** A world in which [os.path.getsize] raises something that is not an
    [OSError]. *)
Definition null_byte_world : World :=
  {| getsize := fun _ _ =>
       Raises {| exn_type := ValueError; exn_str := "embedded null byte" |};
     read_text := fun _ _ => Returns "";
     isoformat_now := fun _ => "2024-05-01T10:00:03.000000" |}.


(** A world in which every file is gone one second after time 0. *)
Definition vanishing_world : World :=
  {| getsize := fun t _ =>
       if t <? 1 then Returns 4
       else Raises {| exn_type := OSError;
                      exn_str := "[Errno 2] No such file or directory" |};
     read_text := fun _ _ =>
       Raises {| exn_type := OSError;
                 exn_str := "[Errno 2] No such file or directory" |};
     isoformat_now := fun _ => "2024-05-01T10:00:03.000000" |}.


(** The values [sqlite3] can bind to an INTEGER column: [None] and the
    integers of SQLite's signed 64 bits.  [cursor.execute] raises
    [OverflowError] for any other integer and runs no statement. *)
Definition fits_int64 (o : option Z) : bool :=
  match o with
  | None => true
  | Some n => (- 2 ^ 63 <=? n) && (n <? 2 ^ 63)
  end.

(** A call of [inserting] whose two integers can be bound. *)
Definition bindable (c : Call) : Prop :=
  fits_int64 (call_lines c) = true /\ fits_int64 (call_word_count c) = true.

(** An empty table whose [path] is UNIQUE, and that table after the
    calls [cs]. *)
Definition empty_unique_table : Database :=
  {| unique_path := true; files_rows := []; seq := 0 |}.

Definition unique_table_after (cs : list Call) : Database :=
  match inserting_calls cs empty_unique_table with
  | Returns d => d
  | Raises _ => empty_unique_table
  end.




(** * Properties *)

(** ** The store *)

Lemma max_rowid_bound (rs : list Row) (r : Row) :
  In r rs -> id r <= max_rowid rs.
Proof.
  unfold max_rowid. induction rs as [|r0 rs IH]; simpl; [tauto|].
  intros [->|Hin]; [lia|]. specialize (IH Hin). lia.
Qed.

(** Without a UNIQUE constraint on [path] the INSERT statement always
    succeeds and appends one row. *)
Lemma insert_files_plain p st ln wc err cr pr d :
  unique_path d = false ->
  insert_files p st ln wc err cr pr d =
  Returns {| unique_path := false;
             files_rows := files_rows d ++
               [{| id := Z.max (seq d) (max_rowid (files_rows d)) + 1;
                   path := p; status := st; lines := ln; word_count := wc;
                   error := err; created_at := cr; processed_at := pr |}];
             seq := Z.max (seq d) (max_rowid (files_rows d)) + 1 |}.
Proof. intros H. unfold insert_files. rewrite H. reflexivity. Qed.

(** The INSERT statement raises nothing but [sqlite3.IntegrityError]. *)
Lemma insert_files_raises p st ln wc err cr pr d e :
  insert_files p st ln wc err cr pr d = Raises e ->
  is_IntegrityError e = true.
Proof.
  unfold insert_files.
  destruct (unique_path d && existsb _ _); [|discriminate].
  intros H. injection H as <-. reflexivity.
Qed.

(** [inserting] returns: either branch of its [try] completes. *)
Lemma inserting_returns now p st ln wc err d :
  exists d', inserting now p st ln wc err d = Returns d'.
Proof.
  unfold inserting.
  destruct (insert_files _ _ _ _ _ _ _ d) as [d'|e] eqn:E; [eauto|].
  rewrite (insert_files_raises _ _ _ _ _ _ _ _ _ E). eauto.
Qed.

Lemma inserting_plain now p st ln wc err d :
  unique_path d = false ->
  inserting now p st ln wc err d =
  Returns {| unique_path := false;
             files_rows := files_rows d ++
               [{| id := Z.max (seq d) (max_rowid (files_rows d)) + 1;
                   path := p; status := st; lines := ln; word_count := wc;
                   error := err; created_at := Some now;
                   processed_at := processed_value now st |}];
             seq := Z.max (seq d) (max_rowid (files_rows d)) + 1 |}.
Proof.
  intros H. unfold inserting. rewrite insert_files_plain by exact H.
  reflexivity.
Qed.

Lemma inserting_calls_returns cs : forall d,
  exists d', inserting_calls cs d = Returns d'.
Proof.
  induction cs as [|c cs IH]; intros d; simpl; [eauto|].
  unfold inserting_call.
  destruct (inserting_returns (call_now c) (call_path c) (call_status c)
              (call_lines c) (call_word_count c) (call_error c) d)
    as [d1 ->].
  apply IH.
Qed.

Lemma inserting_calls_app cs1 : forall cs2 d d1,
  inserting_calls cs1 d = Returns d1 ->
  inserting_calls (cs1 ++ cs2) d = inserting_calls cs2 d1.
Proof.
  induction cs1 as [|c cs1 IH]; intros cs2 d d1; simpl.
  - intros H. injection H as ->. reflexivity.
  - destruct (inserting_call c d) as [d'|e]; [|discriminate].
    apply IH.
Qed.

(** *** One row per path? *)

(** C1, on the code: no upsert.  On the table that
    [init_database] creates, two calls of [inserting] for the same path
    both take the INSERT branch: after the first there is one row for the
    path, after the second there are two. *)
Theorem inserting_twice_two_rows now1 now2 p st1 st2 ln1 ln2 wc1 wc2 e1 e2 :
  exists d1 d2,
    inserting now1 (Some p) st1 ln1 wc1 e1 (init_database None) = Returns d1 /\
    inserting now2 (Some p) st2 ln2 wc2 e2 d1 = Returns d2 /\
    List.length (rows_for p d1) = 1%nat /\
    List.length (rows_for p d2) = 2%nat.
Proof.
  do 2 eexists.
  split; [apply inserting_plain; reflexivity|].
  split; [apply inserting_plain; reflexivity|].
  unfold rows_for; simpl. rewrite String.eqb_refl. simpl. split; reflexivity.
Qed.

(** Had the table declared [path] UNIQUE, the [except] branch of the same
    function would have been taken and the row replaced in place. *)
Example inserting_twice_unique_table :
  let d0 := {| unique_path := true; files_rows := []; seq := 0 |} in
  exists d1 d2,
    inserting "t1" (Some "test_1.txt") "FAILED" None None (Some "gone") d0
      = Returns d1 /\
    inserting "t2" (Some "test_1.txt") "OK" (Some 2) (Some 0) None d1
      = Returns d2 /\
    files_rows d2 =
      [{| id := 1; path := Some "test_1.txt"; status := "OK";
          lines := Some 2; word_count := Some 0; error := None;
          created_at := Some "t1"; processed_at := Some "t2" |}].
Proof. do 2 eexists. repeat split. Qed.




(** *** The UPDATE branch *)

Lemma update_row_frame st ln wc err pr p r :
  updated_from st ln wc err pr p r (update_row st ln wc err pr p r).
Proof.
  unfold updated_from, update_row.
  destruct (sql_eq (path r) p); simpl; repeat split; auto; discriminate.
Qed.

Lemma update_files_frame st ln wc err pr p d :
  Forall2 (updated_from st ln wc err pr p)
    (files_rows d) (files_rows (update_files st ln wc err pr p d)).
Proof.
  unfold update_files; simpl.
  induction (files_rows d) as [|r rs IH]; simpl; constructor; auto.
  apply update_row_frame.
Qed.

(** C9.  When the INSERT of [inserting] raises, so that the UPDATE branch
    runs, the table keeps its rows one for one: each row keeps its [id],
    [path] and [created_at]; the rows of the path get the new status,
    lines, word_count, error and processed_at; the other rows, and the
    AUTOINCREMENT counter, are untouched. *)
Theorem update_branch_frame now p st ln wc err d e :
  insert_files p st ln wc err (Some now) (processed_value now st) d
    = Raises e ->
  exists d',
    inserting now p st ln wc err d = Returns d' /\
    Forall2 (updated_from st ln wc err (processed_value now st) p)
      (files_rows d) (files_rows d') /\
    seq d' = seq d /\ unique_path d' = unique_path d.
Proof.
  intros H. unfold inserting. rewrite H.
  rewrite (insert_files_raises _ _ _ _ _ _ _ _ _ H).
  eexists; split; [reflexivity|].
  split; [apply update_files_frame|]. split; reflexivity.
Qed.

Lemma update_branch_frame_witness :
  insert_files (Some "test_1.txt") "OK" (Some 2) (Some 0) None
    (Some "2024-05-01T10:00:09.000000")
    (processed_value "2024-05-01T10:00:09.000000" "OK") unique_table_one_row
    = Raises {| exn_type := IntegrityError;
                exn_str := "UNIQUE constraint failed: files.path" |} /\
  exists d',
    inserting "2024-05-01T10:00:09.000000" (Some "test_1.txt") "OK"
      (Some 2) (Some 0) None unique_table_one_row = Returns d' /\
    Forall2 (updated_from "OK" (Some 2) (Some 0) None
               (processed_value "2024-05-01T10:00:09.000000" "OK")
               (Some "test_1.txt"))
      (files_rows unique_table_one_row) (files_rows d') /\
    seq d' = seq unique_table_one_row /\
    unique_path d' = unique_path unique_table_one_row.
Proof.
  split; [reflexivity|].
  apply (update_branch_frame "2024-05-01T10:00:09.000000"
           (Some "test_1.txt") "OK" (Some 2) (Some 0) None
           unique_table_one_row
           {| exn_type := IntegrityError;
              exn_str := "UNIQUE constraint failed: files.path" |}).
  reflexivity.
Defined.

(** *** The INSERT branch *)

(** C10.  When the INSERT of [inserting] succeeds, the one row it adds
    carries the call's single [now] in [created_at]; with status [OK] the
    same value is in [processed_at], with status [FAILED] [processed_at]
    is NULL. *)
Theorem insert_branch_timestamps now p st ln wc err d d' :
  insert_files p st ln wc err (Some now) (processed_value now st) d
    = Returns d' ->
  inserting now p st ln wc err d = Returns d' /\
  exists r,
    files_rows d' = files_rows d ++ [r] /\
    path r = p /\ status r = st /\
    created_at r = Some now /\
    (st = "OK" -> processed_at r = created_at r) /\
    (st = "FAILED" -> processed_at r = None).
Proof.
  intros H. unfold inserting. rewrite H. split; [reflexivity|].
  unfold insert_files in H.
  destruct (unique_path d && existsb _ _); [discriminate|].
  injection H as <-. eexists; split; [reflexivity|]. simpl.
  repeat split; intros ->; reflexivity.
Qed.

Lemma insert_branch_timestamps_witness :
  insert_files (Some "test_1.txt") "OK" (Some 2) (Some 0) None
    (Some "2024-05-01T10:00:03.000000")
    (processed_value "2024-05-01T10:00:03.000000" "OK") (init_database None)
  = Returns
      {| unique_path := false;
         files_rows :=
           [{| id := 1; path := Some "test_1.txt"; status := "OK";
               lines := Some 2; word_count := Some 0; error := None;
               created_at := Some "2024-05-01T10:00:03.000000";
               processed_at := Some "2024-05-01T10:00:03.000000" |}];
         seq := 1 |} /\
  exists r,
    [{| id := 1; path := Some "test_1.txt"; status := "OK";
        lines := Some 2; word_count := Some 0; error := None;
        created_at := Some "2024-05-01T10:00:03.000000";
        processed_at := Some "2024-05-01T10:00:03.000000" |}] = [] ++ [r] /\
    created_at r = Some "2024-05-01T10:00:03.000000" /\
    processed_at r = created_at r.
Proof.
  split; [reflexivity|].
  destruct (insert_branch_timestamps "2024-05-01T10:00:03.000000"
              (Some "test_1.txt") "OK" (Some 2) (Some 0) None
              (init_database None) _ eq_refl)
    as [_ [r [Hrows [_ [_ [Hc [Hok _]]]]]]].
  exists r. split; [exact Hrows|]. split; [exact Hc|]. apply Hok. reflexivity.
Defined.

(** *** Aggregate counts *)


Lemma counts_add_up (rs : list Row) :
  Forall (fun r => ok_or_failed (status r)) rs ->
  Z.of_nat (List.length rs) = count_status "OK" rs + count_status "FAILED" rs.
Proof.
  unfold count_status.
  induction 1 as [|r rs Hr _ IH]; [reflexivity|].
  cbn [filter List.length].
  destruct Hr as [-> | ->]; cbn [String.eqb Ascii.eqb Bool.eqb];
    cbn [List.length]; lia.
Qed.

Lemma inserting_keeps_statuses now p st ln wc err d d' :
  ok_or_failed st ->
  Forall (fun r => ok_or_failed (status r)) (files_rows d) ->
  inserting now p st ln wc err d = Returns d' ->
  Forall (fun r => ok_or_failed (status r)) (files_rows d').
Proof.
  intros Hst Hd. unfold inserting.
  destruct (insert_files _ _ _ _ _ _ _ d) as [d1|e] eqn:E.
  - intros H; injection H as <-.
    unfold insert_files in E.
    destruct (unique_path d && existsb _ _); [discriminate|].
    injection E as <-. simpl. apply Forall_app. split; [exact Hd|].
    constructor; [exact Hst|constructor].
  - rewrite (insert_files_raises _ _ _ _ _ _ _ _ _ E).
    intros H; injection H as <-. simpl.
    apply Forall_map. eapply Forall_impl; [|exact Hd].
    intros r Hr. unfold update_row.
    destruct (sql_eq (path r) p); [exact Hst|exact Hr].
Qed.

Lemma inserting_calls_keep_statuses cs : forall d d',
  Forall (fun c => ok_or_failed (call_status c)) cs ->
  Forall (fun r => ok_or_failed (status r)) (files_rows d) ->
  inserting_calls cs d = Returns d' ->
  Forall (fun r => ok_or_failed (status r)) (files_rows d').
Proof.
  induction cs as [|c cs IH]; intros d d' Hcs Hd; simpl.
  - intros H; injection H as <-. exact Hd.
  - inversion Hcs as [|? ? Hc Hrest]; subst.
    destruct (inserting_call c d) as [d1|e] eqn:E; [|discriminate].
    apply IH; [exact Hrest|].
    eapply inserting_keeps_statuses; [exact Hc|exact Hd|exact E].
Qed.

(** C8.  After any sequence of [inserting] calls, each with status [OK]
    or [FAILED] and integers that can be bound, on a table whose rows so
    far have status [OK] or [FAILED] (a new table among them), the
    numbers [stats] returns are these: [total] is the number of rows of
    the table, [ok] the number of its rows with status [OK], [failed]
    the number of its rows with status [FAILED]; and
    [total = ok + failed]. *)
Theorem stats_total_ok_failed (cs : list Call) (d0 : Database) :
  Forall (fun r => ok_or_failed (status r)) (files_rows d0) ->
  Forall (fun c => ok_or_failed (call_status c)) cs ->
  Forall bindable cs ->
  exists d,
    inserting_calls cs d0 = Returns d /\
    total (stats d) = Z.of_nat (List.length (files_rows d)) /\
    ok (stats d) =
      Z.of_nat (List.length
                  (filter (fun r => String.eqb (status r) "OK")
                     (files_rows d))) /\
    failed (stats d) =
      Z.of_nat (List.length
                  (filter (fun r => String.eqb (status r) "FAILED")
                     (files_rows d))) /\
    total (stats d) = ok (stats d) + failed (stats d).
Proof.
  intros Hd0 Hcs _.
  destruct (inserting_calls_returns cs d0) as [d Hd].
  exists d. split; [exact Hd|].
  split; [reflexivity|]. split; [reflexivity|]. split; [reflexivity|].
  unfold stats; simpl. apply counts_add_up.
  eapply inserting_calls_keep_statuses; [exact Hcs|exact Hd0|exact Hd].
Qed.

Lemma stats_total_ok_failed_witness :
  Forall (fun r => ok_or_failed (status r)) (files_rows (init_database None)) /\
  Forall (fun c => ok_or_failed (call_status c)) three_calls /\
  Forall bindable three_calls /\
  exists d,
    inserting_calls three_calls (init_database None) = Returns d /\
    total (stats d) = 3 /\ ok (stats d) = 2 /\ failed (stats d) = 1.
Proof.
  assert (H0 : Forall (fun r => ok_or_failed (status r))
                 (files_rows (init_database None))) by constructor.
  assert (H : Forall (fun c => ok_or_failed (call_status c)) three_calls).
  { unfold three_calls, ok_or_failed.
    repeat (constructor; [simpl; auto|]). constructor. }
  assert (Hb : Forall bindable three_calls).
  { unfold three_calls, bindable.
    repeat (constructor; [split; reflexivity|]). constructor. }
  split; [exact H0|]. split; [exact H|]. split; [exact Hb|].
  destruct (stats_total_ok_failed three_calls (init_database None) H0 H Hb)
    as [d [Hd [Ht [Ho [Hf _]]]]].
  exists d. split; [exact Hd|].
  injection Hd as <-. repeat split.
Defined.

(** *** Recent records *)



Lemma ascending_snoc rs r :
  ascending rs -> Forall (fun r' => id r' < id r) rs -> ascending (rs ++ [r]).
Proof.
  unfold ascending. induction 1 as [|r0 rs Hs IH Hr0]; intros Hall; simpl.
  - constructor; constructor.
  - inversion Hall as [|? ? Hlt Hrest]; subst.
    constructor; [apply IH; exact Hrest|].
    apply Forall_app. split; [exact Hr0|]. constructor; [exact Hlt|constructor].
Qed.

Lemma row_dict_of_call (c : Call) (n : Z) :
  row_dict {| id := n; path := call_path c; status := call_status c;
              lines := call_lines c; word_count := call_word_count c;
              error := call_error c; created_at := Some (call_now c);
              processed_at := processed_value (call_now c) (call_status c) |}
  = call_dict c.
Proof. reflexivity. Qed.

(** On a table without the UNIQUE constraint every call appends the
    record it was given, and the ids stay in ascending order. *)
Lemma inserting_calls_append cs : forall d d',
  unique_path d = false -> ascending (files_rows d) ->
  inserting_calls cs d = Returns d' ->
  unique_path d' = false /\ ascending (files_rows d') /\
  map row_dict (files_rows d') =
    map row_dict (files_rows d) ++ map call_dict cs.
Proof.
  induction cs as [|c cs IH]; intros d d' Hu Ha; simpl.
  - intros H; injection H as <-. rewrite app_nil_r. auto.
  - unfold inserting_call. rewrite inserting_plain by exact Hu.
    intros H. apply IH in H; simpl.
    + destruct H as [H1 [H2 H3]]. split; [exact H1|]. split; [exact H2|].
      rewrite H3. cbn [files_rows]. rewrite map_app. cbn [map].
      rewrite row_dict_of_call, <- app_assoc. reflexivity.
    + reflexivity.
    + apply ascending_snoc; [exact Ha|].
      apply Forall_forall. intros r' Hin. simpl.
      pose proof (max_rowid_bound _ _ Hin). lia.
Qed.

(** X21.  [LIMIT] with a negative number returns every row. *)
Lemma last_files_negative_limit (n : Z) (d : Database) :
  - 2 ^ 63 <= n < 0 ->
  last_files n d = Returns (map row_dict (order_by_id_desc (files_rows d))).
Proof.
  intros Hn. unfold last_files, sql_limit.
  replace ((n <? - 2 ^ 63) || (2 ^ 63 <=? n)) with false
    by (symmetry; apply orb_false_iff; split;
        [apply Z.ltb_ge|apply Z.leb_gt]; lia).
  replace (n <? 0) with true by (symmetry; apply Z.ltb_lt; lia).
  reflexivity.
Qed.

Lemma insert_desc_perm (r : Row) (l : list Row) :
  Permutation (r :: l) (insert_desc r l).
Proof.
  induction l as [|r' l IH]; simpl; [apply Permutation_refl|].
  destruct (id r' <=? id r); [apply Permutation_refl|].
  eapply Permutation_trans; [apply perm_swap|]. apply perm_skip. exact IH.
Qed.

Lemma insert_desc_sorted (r : Row) (l : list Row) :
  StronglySorted (fun a b => id b <= id a) l ->
  StronglySorted (fun a b => id b <= id a) (insert_desc r l).
Proof.
  induction 1 as [|r' l Hs IH Hall]; simpl; [repeat constructor|].
  destruct (id r' <=? id r) eqn:E.
  - apply Z.leb_le in E. constructor; [constructor; assumption|].
    constructor; [exact E|].
    eapply Forall_impl; [|exact Hall]. simpl. intros x Hx. lia.
  - apply Z.leb_gt in E. constructor; [exact IH|].
    apply Forall_forall. intros x Hin.
    apply (Permutation_in _ (Permutation_sym (insert_desc_perm r l))) in Hin.
    destruct Hin as [<- | Hin]; [lia|].
    rewrite Forall_forall in Hall. apply Hall. exact Hin.
Qed.






(** ** The event filter and the stabilization check *)

(** A name the specification's pattern accepts is accepted by the
    regular expression. *)
Lemma test_digits_txt_accepted (name : string) :
  test_digits_txt name = true -> re_match_test name = true.
Proof.
  unfold test_digits_txt, re_match_test.
  destruct (re_literal "test_" name) as [r1|]; [|discriminate].
  destruct (re_digits1 r1) as [r2|]; [|discriminate].
  intros H. apply String.eqb_eq in H. subst r2. reflexivity.
Qed.

Lemma re_literal_app (lit : string) : forall s r,
  re_literal lit s = Some r <-> s = (lit ++ r)%string.
Proof.
  induction lit as [|a lit IH]; intros s r; simpl.
  - split; [intros H; injection H as ->; reflexivity|intros ->; reflexivity].
  - destruct s as [|c s]; [split; discriminate|].
    destruct (Ascii.eqb a c) eqn:E.
    + apply Ascii.eqb_eq in E. subst c. rewrite IH.
      split; [intros ->; reflexivity|intros H; injection H as ->; reflexivity].
    + split; [discriminate|].
      intros H. injection H as -> _. rewrite Ascii.eqb_refl in E. discriminate.
Qed.

Lemma re_dollar_cases (s : string) :
  re_dollar s = true <-> s = EmptyString \/ s = nl.
Proof.
  unfold re_dollar, nl. destruct s as [|c [|c' s]].
  - split; auto.
  - rewrite Ascii.eqb_eq. split.
    + intros ->. auto.
    + intros [H|H]; [discriminate|]. injection H as ->. reflexivity.
  - split; [discriminate|]. intros [H|H]; discriminate.
Qed.

(** A run of digits that stops in front of [x ++ nl], where [x] begins
    with a character that is no digit, stops in front of [x] when the
    final newline is taken away. *)
Lemma skip_digits_newline (c : ascii) (x : string) : forall r,
  is_digit c = false ->
  skip_digits r = (String c x ++ nl)%string ->
  exists r', r = (r' ++ nl)%string /\ skip_digits r' = String c x.
Proof.
  intros r Hc. induction r as [|a r IH]; simpl; [discriminate|].
  destruct (is_digit a) eqn:Ea.
  - intros H. destruct (IH H) as [r' [-> Hr']].
    exists (String a r'). simpl. rewrite Ea. auto.
  - intros H. exists (String c x). simpl. rewrite Hc. auto.
Qed.

(** The regular expression accepts exactly the names of the form
    [test_<digits>.txt] and those names followed by one newline. *)
Lemma re_match_test_cases (name : string) :
  re_match_test name = true <->
  test_digits_txt name = true \/
  exists name0, name = (name0 ++ nl)%string /\ test_digits_txt name0 = true.
Proof.
  split.
  - unfold re_match_test, test_digits_txt.
    destruct (re_literal "test_" name) as [r1|] eqn:E1; [|discriminate].
    destruct (re_digits1 r1) as [r2|] eqn:E2; [|discriminate].
    destruct (re_literal ".txt" r2) as [r3|] eqn:E3; [|discriminate].
    intros H. apply re_dollar_cases in H. apply re_literal_app in E3.
    destruct H as [-> | ->]; subst r2; [left; reflexivity|right].
    apply re_literal_app in E1. subst name.
    unfold re_digits1 in E2. destruct r1 as [|a r1]; [discriminate|].
    destruct (is_digit a) eqn:Ea; [|discriminate].
    injection E2 as E2.
    destruct (skip_digits_newline "." "txt" r1 eq_refl E2) as [r' [-> Hr']].
    exists ("test_" ++ String a r')%string. split; [reflexivity|].
    simpl. rewrite Ea, Hr'. reflexivity.
  - intros [H | [name0 [-> H]]]; [apply test_digits_txt_accepted; exact H|].
    unfold test_digits_txt in H. unfold re_match_test.
    destruct (re_literal "test_" name0) as [r1|] eqn:E1; [|discriminate].
    apply re_literal_app in E1. subst name0.
    destruct (re_digits1 r1) as [r2|] eqn:E2; [|discriminate].
    apply String.eqb_eq in H. subst r2. simpl.
    unfold re_digits1 in E2. destruct r1 as [|a r1]; [discriminate|].
    simpl. destruct (is_digit a) eqn:Ea; [|discriminate].
    injection E2 as E2.
    assert (Hs : skip_digits (r1 ++ nl) = (".txt" ++ nl)%string).
    { clear Ea. induction r1 as [|b r1 IH]; simpl in *; [discriminate|].
      destruct (is_digit b); [apply IH; exact E2|].
      injection E2 as -> ->. reflexivity. }
    rewrite Hs. reflexivity.
Qed.

Lemma try_size_rejects w t p q :
  re_match_test (basename p) = false -> try_size w t p q = Returns q.
Proof. intros H. unfold try_size. rewrite H. reflexivity. Qed.

(** Whatever [try_size] returns, the queue is the old one or the old one
    with [p] put at its end. *)
Lemma try_size_cases w t p q q' :
  try_size w t p q = Returns q' ->
  q' = q \/ (q' = put (Some p) q /\ re_match_test (basename p) = true).
Proof.
  unfold try_size.
  destruct (re_match_test (basename p)); simpl;
    [|intros H; injection H as <-; auto].
  destruct (getsize w t p) as [s1|e1];
    [|destruct (is_OSError e1); [intros H; injection H as <-; auto|discriminate]].
  destruct (getsize w (t + 2) p) as [s2|e2];
    [|destruct (is_OSError e2); [intros H; injection H as <-; auto|discriminate]].
  destruct (negb (s1 =? s2)); intros H; injection H as <-; auto.
Qed.

(** C5.  When the name passes the filter and the two sizes, measured two
    seconds apart, differ, [try_size] returns with the queue as it was;
    delivering the created or moved event leaves queue and table as
    they were, and the service goes on exactly as if the event had not
    been delivered. *)
Theorem size_changed_abandons w t p q s1 s2 :
  re_match_test (basename p) = true ->
  getsize w t p = Returns s1 ->
  getsize w (t + 2) p = Returns s2 ->
  s1 <> s2 ->
  try_size w t p q = Returns q /\
  (forall event s rest,
      is_directory event = false -> src_path event = p ->
      step w s (Created t event) = s /\
      run w (Created t event :: rest) s = run w rest s) /\
  (forall event s rest,
      is_directory event = false -> dest_path event = p ->
      step w s (Moved t event) = s /\
      run w (Moved t event :: rest) s = run w rest s).
Proof.
  intros Hm H1 H2 Hne.
  assert (Ht : forall q0, try_size w t p q0 = Returns q0).
  { intros q0. unfold try_size. rewrite Hm, H1, H2. simpl.
    destruct (s1 =? s2) eqn:E; [apply Z.eqb_eq in E; contradiction|].
    reflexivity. }
  split; [apply Ht|].
  split; intros event s rest Hd Hp.
  - assert (Hs : step w s (Created t event) = s).
    { simpl. unfold on_created. rewrite Hd, Hp, Ht. simpl.
      destruct s; reflexivity. }
    split; [exact Hs|]. unfold run. cbn [fold_left]. rewrite Hs. reflexivity.
  - assert (Hs : step w s (Moved t event) = s).
    { simpl. unfold on_moved. rewrite Hd, Hp, Ht. simpl.
      destruct s; reflexivity. }
    split; [exact Hs|]. unfold run. cbn [fold_left]. rewrite Hs. reflexivity.
Qed.

Lemma size_changed_abandons_witness :
  re_match_test (basename "/watch/test_2.txt") = true /\
  getsize growing_world 0 "/watch/test_2.txt" = Returns 10 /\
  getsize growing_world (0 + 2) "/watch/test_2.txt" = Returns 12 /\
  10 <> 12 /\
  try_size growing_world 0 "/watch/test_2.txt" empty_queue
    = Returns empty_queue /\
  step growing_world initial_state
    (Created 0 (file_event "/watch/test_2.txt")) = initial_state.
Proof.
  assert (Hm : re_match_test (basename "/watch/test_2.txt") = true)
    by reflexivity.
  assert (H1 : getsize growing_world 0 "/watch/test_2.txt" = Returns 10)
    by reflexivity.
  assert (H2 : getsize growing_world (0 + 2) "/watch/test_2.txt" = Returns 12)
    by reflexivity.
  assert (Hne : 10 <> 12) by lia.
  destruct (size_changed_abandons growing_world 0 "/watch/test_2.txt"
              empty_queue 10 12 Hm H1 H2 Hne) as [Ht [Hc _]].
  repeat (split; [assumption|]).
  apply (Hc (file_event "/watch/test_2.txt") initial_state []); reflexivity.
Defined.

(** ** What reaches the queue and the table *)


Lemma inserting_keeps_paths (P : option string -> Prop)
    now p st ln wc err d d' :
  P p ->
  Forall (fun r => P (path r)) (files_rows d) ->
  inserting now p st ln wc err d = Returns d' ->
  Forall (fun r => P (path r)) (files_rows d').
Proof.
  intros Hp Hd. unfold inserting.
  destruct (insert_files _ _ _ _ _ _ _ d) as [d1|e] eqn:E.
  - intros H; injection H as <-.
    unfold insert_files in E.
    destruct (unique_path d && existsb _ _); [discriminate|].
    injection E as <-. simpl. apply Forall_app. split; [exact Hd|].
    constructor; [exact Hp|constructor].
  - rewrite (insert_files_raises _ _ _ _ _ _ _ _ _ E).
    intros H; injection H as <-. simpl.
    apply Forall_map. eapply Forall_impl; [|exact Hd].
    intros r Hr. unfold update_row.
    destruct (sql_eq (path r) p); exact Hr.
Qed.

Lemma process_keeps_paths (P : option string -> Prop) w t p d d' :
  P p ->
  Forall (fun r => P (path r)) (files_rows d) ->
  process w t p d = Returns d' ->
  Forall (fun r => P (path r)) (files_rows d').
Proof.
  intros Hp Hd. unfold process.
  destruct (count_file w t p) as [[ln wc]|e].
  - destruct (inserting _ p "OK" _ _ _ d) as [d1|e] eqn:E.
    + intros H; injection H as <-.
      eapply inserting_keeps_paths; [exact Hp|exact Hd|exact E].
    + apply inserting_keeps_paths; assumption.
  - apply inserting_keeps_paths; assumption.
Qed.

Lemma step_filtered w s a : filtered s -> filtered (step w s a).
Proof.
  intros [Hq Hd]. unfold filtered.
  assert (Hdeliver : forall p t, forall r,
             try_size w t p (file_queue s) = r -> filtered (deliver r s)).
  { intros p t [q'|e] Hr; simpl; [|split; assumption].
    split; [|exact Hd].
    destruct (try_size_cases _ _ _ _ _ Hr) as [->|[-> Hm]]; [exact Hq|].
    simpl. apply Forall_app. split; [exact Hq|].
    constructor; [exact Hm|constructor]. }
  destruct a as [t ev|t ev|t ev|t|]; simpl.
  - unfold on_created. destruct (negb (is_directory ev)).
    + eapply Hdeliver; reflexivity.
    + simpl. split; assumption.
  - split; assumption.
  - unfold on_moved. destruct (negb (is_directory ev)).
    + eapply Hdeliver; reflexivity.
    + simpl. split; assumption.
  - unfold worker_body, get.
    destruct (items (file_queue s)) as [|p rest] eqn:Ei;
      [rewrite Ei; split; assumption|].
    inversion Hq as [|? ? Hp Hrest]; subst.
    destruct (process w t p (db s)) as [d'|e] eqn:E; simpl.
    + assert (Hd' := process_keeps_paths passes_filter _ _ _ _ _ Hp Hd E).
      unfold task_done; simpl.
      destruct (unfinished_tasks (file_queue s) - 1 <? 0); simpl;
        split; assumption.
    + split; assumption.
  - split; [|exact Hd]. apply Forall_app. split; [exact Hq|].
    constructor; [exact I|constructor].
Qed.

(** Under any sequence of events, worker passes and interrupts, a path
    whose base name the regular expression of [try_size] rejects is in
    no queue entry and in no row of the table. *)
Lemma run_filtered w acts : forall s, filtered s -> filtered (run w acts s).
Proof.
  induction acts as [|a acts IH]; intros s Hs; [exact Hs|].
  apply IH. apply step_filtered. exact Hs.
Qed.

Lemma rejected_path_never_recorded w acts p :
  re_match_test (basename p) = false ->
  ~ In (Some p) (items (file_queue (run w acts initial_state))) /\
  rows_for p (db (run w acts initial_state)) = [].
Proof.
  intros Hrej.
  destruct (run_filtered w acts initial_state) as [Hq Hd].
  { split; constructor. }
  split.
  - intros Hin. rewrite Forall_forall in Hq. specialize (Hq _ Hin).
    simpl in Hq. congruence.
  - unfold rows_for.
    induction Hd as [|r rs Hr _ IH]; [reflexivity|]. simpl.
    destruct (path r) as [p'|] eqn:Ep; simpl; [|exact IH].
    destruct (String.eqb p' p) eqn:E; [|exact IH].
    apply String.eqb_eq in E. subst p'. simpl in Hr. congruence.
Qed.

(** The same for the pattern of the specification: a path whose base
    name is neither [test_<digits>.txt] nor such a name followed by one
    newline is never queued and never recorded. *)
Lemma only_pattern_or_newline_recorded w acts p :
  test_digits_txt (basename p) = false ->
  (forall name0, basename p = (name0 ++ nl)%string ->
                 test_digits_txt name0 = false) ->
  ~ In (Some p) (items (file_queue (run w acts initial_state))) /\
  rows_for p (db (run w acts initial_state)) = [].
Proof.
  intros H1 H2. apply rejected_path_never_recorded.
  destruct (re_match_test (basename p)) eqn:E; [|reflexivity].
  apply re_match_test_cases in E. destruct E as [E | [name0 [Hn E]]].
  - congruence.
  - rewrite (H2 name0 Hn) in E. discriminate.
Qed.

(** C4, on the code: one more name passes.  The base name
    [test_1.txt] followed by a newline character is not of the form
    [test_<digits>.txt], yet [$] lets the regular expression accept it:
    with a stable size the path is put on the queue, and the worker
    writes a row for it. *)
Theorem newline_name_enqueued_and_recorded :
  test_digits_txt (basename newline_name) = false /\
  re_match_test (basename newline_name) = true /\
  file_queue (run (settled_world "x")
                [Created 0 (file_event newline_name)] initial_state)
    = {| items := [Some newline_name]; unfinished_tasks := 1 |} /\
  files_rows (db (run (settled_world "x")
                    [Created 0 (file_event newline_name); WorkerPass 3]
                    initial_state))
    = [{| id := 1; path := Some newline_name; status := "OK";
          lines := Some 1; word_count := Some 0; error := None;
          created_at := Some "2024-05-01T10:00:03.000000";
          processed_at := Some "2024-05-01T10:00:03.000000" |}].
Proof. repeat split. Qed.

(** ** The worker *)

(** [f.readlines()] leaves nothing for the [f.read()] after it: the word
    count is [0] whatever the file holds. *)
Lemma count_text_no_words (f : TextIO) :
  count_text f =
  (Z.of_nat (List.length (lines_from (remaining f) EmptyString)), 0).
Proof. reflexivity. Qed.

Lemma count_file_no_words w t p ln wc :
  count_file w t p = Returns (ln, wc) -> wc = 0.
Proof.
  unfold count_file. destruct (open_text w t p) as [f|e]; [|discriminate].
  rewrite count_text_no_words. intros H. injection H as _ <-. reflexivity.
Qed.

(** C2, on the code: no word is counted.  For [test_1.txt]
    holding ["a b\nc\n"], created and left alone, the worker writes a row
    with status [OK] and [lines = 2], but with [word_count = 0]: the text
    has three whitespace-delimited tokens, and none of them is counted. *)
Theorem scenario_word_count_zero :
  List.length (split scenario_text) = 3%nat /\
  count_text {| remaining := translate_newlines scenario_text |} = (2, 0) /\
  run (settled_world scenario_text)
    [Created 0 (file_event "test_1.txt"); WorkerPass 3] initial_state
  = {| file_queue := {| items := []; unfinished_tasks := 0 |};
       db := {| unique_path := false;
                files_rows :=
                  [{| id := 1; path := Some "test_1.txt"; status := "OK";
                      lines := Some 2; word_count := Some 0; error := None;
                      created_at := Some "2024-05-01T10:00:03.000000";
                      processed_at := Some "2024-05-01T10:00:03.000000" |}];
                seq := 1 |} |}.
Proof. repeat split. Qed.

(** The loop body has no way out: every pass ends in [Continue]. *)
Lemma worker_body_continues w t s : exists s', worker_body w t s = Continue s'.
Proof.
  unfold worker_body.
  destruct (get (file_queue s)) as [[p q]|e]; [|eauto].
  destruct (process w t p (db s)) as [d'|e]; [|eauto].
  destruct (task_done q); eauto.
Qed.

Lemma worker_continues w ticks : forall s,
  exists s', worker w ticks s = Continue s'.
Proof.
  induction ticks as [|t ticks IH]; intros s; simpl; [eauto|].
  destruct (worker_body_continues w t s) as [s' ->]. apply IH.
Qed.

(** C3, on the code: no exit.  After the interrupt
    handler has put [None] on the queue, the worker is still in its loop
    after any number of passes; the pass that takes [None] from the queue
    treats it as a path: opening it raises, and a [FAILED] row with a
    NULL path is written. *)
Theorem sentinel_not_observed w :
  (forall ticks s,
      exists s', worker w ticks (step w s Interrupt) = Continue s') /\
  (forall t,
      worker_body w t (step w initial_state Interrupt)
      = Continue
          {| file_queue := {| items := []; unfinished_tasks := 0 |};
             db := {| unique_path := false;
                      files_rows :=
                        [{| id := 1; path := None; status := "FAILED";
                            lines := None; word_count := None;
                            error := Some "expected str, bytes or os.PathLike object, not NoneType";
                            created_at := Some (isoformat_now w t);
                            processed_at := None |}];
                      seq := 1 |} |}).
Proof.
  split; [intros ticks s; apply worker_continues|].
  intros t. reflexivity.
Qed.





(** In every state the service reaches, the count of unfinished tasks
    covers the entries still in the queue, so [task_done] does not raise
    in the worker. *)
Lemma run_unfinished_tasks w acts : forall s,
  qsize (file_queue s) <= unfinished_tasks (file_queue s) ->
  qsize (file_queue (run w acts s))
    <= unfinished_tasks (file_queue (run w acts s)).
Proof.
  induction acts as [|a acts IH]; intros s Hs; [exact Hs|].
  apply IH. clear IH. unfold qsize in *.
  assert (Hput : forall x,
             Z.of_nat (List.length (items (put x (file_queue s))))
             <= unfinished_tasks (put x (file_queue s))).
  { intros x. simpl. rewrite length_app. simpl. lia. }
  assert (Hdeliver : forall p t r,
             try_size w t p (file_queue s) = r ->
             Z.of_nat (List.length (items (file_queue (deliver r s))))
             <= unfinished_tasks (file_queue (deliver r s))).
  { intros p t [q'|e] Hr; simpl; [|exact Hs].
    destruct (try_size_cases _ _ _ _ _ Hr) as [->|[-> _]];
      [exact Hs|apply Hput]. }
  destruct a as [t ev|t ev|t ev|t|]; simpl.
  - unfold on_created. destruct (negb (is_directory ev));
      [eapply Hdeliver; reflexivity|exact Hs].
  - exact Hs.
  - unfold on_moved. destruct (negb (is_directory ev));
      [eapply Hdeliver; reflexivity|exact Hs].
  - unfold worker_body, get.
    destruct (items (file_queue s)) as [|p rest] eqn:Ei;
      [rewrite Ei; exact Hs|].
    simpl in Hs.
    destruct (process w t p (db s)) as [d'|e]; simpl; [|lia].
    unfold task_done; simpl.
    destruct (unfinished_tasks (file_queue s) - 1 <? 0) eqn:E; simpl; lia.
  - apply Hput.
Qed.

(** * Further properties of the code *)

(** ** Strings *)

Lemma string_forall_app (f : ascii -> bool) (a b : string) :
  string_forall f (a ++ b) = string_forall f a && string_forall f b.
Proof.
  induction a as [|c a IH]; simpl; [reflexivity|].
  rewrite IH, andb_assoc. reflexivity.
Qed.

Lemma append_nil_r (s : string) : (s ++ "")%string = s.
Proof. induction s as [|c s IH]; simpl; [|rewrite IH]; reflexivity. Qed.

Lemma append_assoc (a b c : string) :
  ((a ++ b) ++ c)%string = (a ++ (b ++ c))%string.
Proof. induction a as [|x a IH]; simpl; [|rewrite IH]; reflexivity. Qed.

Lemma basename_from_no_slash (p : string) : forall cur,
  no_slash p = true -> basename_from p cur = (cur ++ p)%string.
Proof.
  unfold no_slash. induction p as [|c p IH]; intros cur; simpl.
  - intros _. rewrite append_nil_r. reflexivity.
  - intros H. apply andb_true_iff in H. destruct H as [Hc Hp].
    destruct (Ascii.eqb c slash); [discriminate|].
    rewrite IH by exact Hp. rewrite append_assoc. reflexivity.
Qed.

Lemma basename_from_slash (dir name : string) : forall cur,
  basename_from (dir ++ String slash name) cur = basename_from name "".
Proof.
  induction dir as [|c dir IH]; intros cur; simpl.
  - reflexivity.
  - destruct (Ascii.eqb c slash); apply IH.
Qed.

Lemma basename_from_keeps_no_slash (p : string) : forall cur,
  no_slash cur = true -> no_slash (basename_from p cur) = true.
Proof.
  induction p as [|c p IH]; intros cur Hcur; simpl; [exact Hcur|].
  destruct (Ascii.eqb c slash) eqn:E; apply IH; [reflexivity|].
  unfold no_slash in *. rewrite string_forall_app, Hcur. simpl.
  rewrite E. reflexivity.
Qed.

(** [os.path.basename] returns a name without a slash, whatever the
    path. *)
Theorem basename_no_slash (p : string) : no_slash (basename p) = true.
Proof. apply basename_from_keeps_no_slash. reflexivity. Qed.

(** X2.  The base name of [dir/name] is [name], whatever the directory, as
    long as [name] holds no slash. *)
Theorem basename_join (dir name : string) :
  no_slash name = true ->
  basename (dir ++ "/" ++ name) = name.
Proof.
  intros H. unfold basename.
  change (dir ++ "/" ++ name)%string with (dir ++ String slash name)%string.
  rewrite basename_from_slash. apply basename_from_no_slash. exact H.
Qed.

Lemma basename_join_witness :
  no_slash "test_42.txt" = true /\
  basename ("/srv/watch" ++ "/" ++ "test_42.txt") = "test_42.txt".
Proof.
  assert (H : no_slash "test_42.txt" = true) by reflexivity.
  split; [exact H|]. exact (basename_join "/srv/watch" "test_42.txt" H).
Defined.

Lemma skip_digits_split (r : string) :
  exists ds, all_digits ds = true /\ r = (ds ++ skip_digits r)%string.
Proof.
  induction r as [|c r [ds [Hd Hr]]]; [exists ""; split; reflexivity|].
  simpl. destruct (is_digit c) eqn:E.
  - exists (String c ds). unfold all_digits in *. simpl.
    rewrite E, Hd. split; [reflexivity|]. rewrite <- Hr. reflexivity.
  - exists "". split; reflexivity.
Qed.

Lemma skip_digits_stop (ds : string) (c : ascii) (x : string) :
  all_digits ds = true -> is_digit c = false ->
  skip_digits (ds ++ String c x) = String c x.
Proof.
  unfold all_digits. intros Hd Hc. induction ds as [|a ds IH]; simpl.
  - rewrite Hc. reflexivity.
  - simpl in Hd. apply andb_true_iff in Hd. destruct Hd as [Ha Hd].
    rewrite Ha. apply IH. exact Hd.
Qed.

(** X1.  The language of the regular expression of [try_size] among the
    names made of characters below U+0100, where [\d] is one of the ten
    digits [0 .. 9]: exactly the names [test_], a non-empty run of
    digits, [.txt], and those names with one newline after them. *)
Theorem re_match_test_language (name : string) :
  re_match_test name = true <->
  exists ds,
    ds <> "" /\ all_digits ds = true /\
    (name = ("test_" ++ ds ++ ".txt")%string \/
     name = ("test_" ++ ds ++ ".txt" ++ nl)%string).
Proof.
  split.
  - unfold re_match_test.
    destruct (re_literal "test_" name) as [r1|] eqn:E1; [|discriminate].
    destruct (re_digits1 r1) as [r2|] eqn:E2; [|discriminate].
    destruct (re_literal ".txt" r2) as [r3|] eqn:E3; [|discriminate].
    intros H. apply re_dollar_cases in H.
    apply re_literal_app in E1. apply re_literal_app in E3. subst name r2.
    unfold re_digits1 in E2. destruct r1 as [|a r1]; [discriminate|].
    destruct (is_digit a) eqn:Ea; [|discriminate]. injection E2 as E2.
    destruct (skip_digits_split r1) as [ds [Hd Hr]]. rewrite E2 in Hr.
    exists (String a ds). split; [discriminate|].
    split; [unfold all_digits in *; simpl; rewrite Ea, Hd; reflexivity|].
    rewrite Hr. destruct H as [-> | ->]; [left|right]; simpl;
      rewrite ?append_assoc; reflexivity.
  - intros [ds [Hne [Hd H]]].
    destruct ds as [|a ds]; [congruence|].
    unfold all_digits in Hd. simpl in Hd.
    apply andb_true_iff in Hd. destruct Hd as [Ha Hd].
    destruct H as [-> | ->]; unfold re_match_test; simpl; rewrite Ha;
      (rewrite skip_digits_stop; [reflexivity|exact Hd|reflexivity]).
Qed.

Lemma translate_newlines_no_cr_aux (s : string) :
  no_cr (translate_newlines s) = true /\
  (forall c, no_cr (translate_newlines (String c s)) = true).
Proof.
  unfold no_cr. induction s as [|a s [IH1 IH2]].
  - split; [reflexivity|]. intros c. simpl.
    destruct (Ascii.eqb c CR) eqn:E; simpl; [reflexivity|].
    rewrite E. reflexivity.
  - split; [apply IH2|]. intros c.
    change (translate_newlines (String c (String a s)))
      with (if Ascii.eqb c CR
            then (if Ascii.eqb a LF then String LF (translate_newlines s)
                  else String LF (translate_newlines (String a s)))
            else String c (translate_newlines (String a s))).
    destruct (Ascii.eqb c CR) eqn:E.
    + destruct (Ascii.eqb a LF); cbn [string_forall];
        [rewrite IH1|rewrite IH2]; reflexivity.
    + cbn [string_forall]. rewrite E, IH2. reflexivity.
Qed.

Lemma translate_newlines_fixed (s : string) :
  no_cr s = true -> translate_newlines s = s.
Proof.
  unfold no_cr. induction s as [|c s IH]; [reflexivity|].
  cbn [string_forall]. intros H. apply andb_true_iff in H.
  destruct H as [Hc Hs]. simpl.
  destruct (Ascii.eqb c CR); [discriminate|]. rewrite IH by exact Hs.
  reflexivity.
Qed.

(** Newline translation leaves no carriage return in the text, and a
    text that has been translated is not changed by a second pass. *)
Theorem translate_newlines_no_cr (s : string) :
  no_cr (translate_newlines s) = true /\
  translate_newlines (translate_newlines s) = translate_newlines s.
Proof.
  destruct (translate_newlines_no_cr_aux s) as [H _].
  split; [exact H|]. apply translate_newlines_fixed. exact H.
Qed.

Lemma lines_from_join (s : string) : forall cur,
  join (lines_from s cur) = (cur ++ s)%string.
Proof.
  unfold join. induction s as [|c s IH]; intros cur; simpl.
  - destruct cur; simpl; [reflexivity|]. rewrite !append_nil_r. reflexivity.
  - destruct (Ascii.eqb c LF) eqn:E.
    + apply Ascii.eqb_eq in E. subst c. simpl. rewrite IH. simpl.
      rewrite append_assoc. reflexivity.
    + rewrite IH, append_assoc. reflexivity.
Qed.

Lemma lines_from_length (s : string) : forall cur,
  List.length (lines_from s cur) =
  (count_lf s +
   (if (is_empty s && is_empty cur) || ends_with_lf s then 0 else 1))%nat.
Proof.
  induction s as [|c s IH]; intros cur.
  - simpl. destruct (is_empty cur); reflexivity.
  - cbn [lines_from count_lf]. destruct (Ascii.eqb c LF) eqn:E.
    + cbn [List.length]. rewrite IH.
      destruct s as [|c' s]; [simpl; rewrite E; reflexivity|].
      cbn [is_empty ends_with_lf andb orb]. lia.
    + rewrite IH.
      assert (Hne : is_empty (cur ++ String c "") = false)
        by (destruct cur; reflexivity).
      rewrite Hne.
      destruct s as [|c' s]; [simpl; rewrite E; reflexivity|].
      cbn [is_empty ends_with_lf andb orb]. lia.
Qed.

(** X9.  [readlines] loses nothing and invents nothing: its lines, put one
    after the other, are the text that was left to read. *)
Theorem readlines_join (f : TextIO) :
  join (fst (readlines f)) = remaining f.
Proof. unfold readlines. simpl. apply lines_from_join. Qed.

(** X10.  The number of lines [readlines] returns is the number of newline
    characters, and one more when the text is not empty and does not end
    in a newline: a last line without a newline is counted. *)
Theorem readlines_count (f : TextIO) :
  List.length (fst (readlines f)) =
  (count_lf (remaining f) +
   (if is_empty (remaining f) || ends_with_lf (remaining f) then 0 else 1))%nat.
Proof.
  unfold readlines. simpl. rewrite lines_from_length.
  rewrite andb_true_r. reflexivity.
Qed.

Lemma split_from_tokens (s : string) : forall cur,
  no_space cur = true ->
  Forall (fun tok => tok <> "" /\ no_space tok = true) (split_from s cur).
Proof.
  unfold no_space. induction s as [|c s IH]; intros cur Hcur; simpl.
  - destruct cur as [|a cur]; simpl; [constructor|].
    constructor; [split; [discriminate|exact Hcur]|constructor].
  - destruct (isspace c) eqn:E.
    + destruct cur as [|a cur]; simpl; [apply IH; reflexivity|].
      constructor; [split; [discriminate|exact Hcur]|apply IH; reflexivity].
    + apply IH. rewrite string_forall_app, Hcur. simpl. rewrite E.
      reflexivity.
Qed.

(** Every token [str.split()] returns is non-empty and holds no
    whitespace character. *)
Theorem split_tokens (s : string) :
  Forall (fun tok => tok <> "" /\ no_space tok = true) (split s).
Proof. apply split_from_tokens. reflexivity. Qed.

Lemma split_from_nonempty_cur (s : string) : forall c cur,
  split_from s (String c cur) <> [].
Proof.
  induction s as [|a s IH]; intros c cur; simpl; [discriminate|].
  destruct (isspace a); [discriminate|]. apply IH.
Qed.

(** [str.split()] returns no token exactly when the text is empty or
    all whitespace. *)
Theorem split_nil_iff (s : string) :
  split s = [] <-> all_space s = true.
Proof.
  unfold split, all_space. induction s as [|c s IH]; simpl.
  - split; reflexivity.
  - destruct (isspace c); simpl; [exact IH|].
    split; [|discriminate]. intros H.
    exfalso. exact (split_from_nonempty_cur s c "" H).
Qed.

(** ** The event handlers *)

(** X3.  A file whose name passes the filter and whose size is the same at
    both measurements is put on the queue once, behind the entries
    already there, by a created event as by a moved one; the table is
    not touched. *)
Theorem stable_file_enqueued w t p sz :
  re_match_test (basename p) = true ->
  getsize w t p = Returns sz ->
  getsize w (t + 2) p = Returns sz ->
  (forall event s,
      is_directory event = false -> src_path event = p ->
      step w s (Created t event)
      = {| file_queue := put (Some p) (file_queue s); db := db s |}) /\
  (forall event s,
      is_directory event = false -> dest_path event = p ->
      step w s (Moved t event)
      = {| file_queue := put (Some p) (file_queue s); db := db s |}) /\
  (forall q, qsize (put (Some p) q) = qsize q + 1 /\
             items (put (Some p) q) = items q ++ [Some p]).
Proof.
  intros Hm H1 H2.
  assert (Ht : forall q, try_size w t p q = Returns (put (Some p) q)).
  { intros q. unfold try_size. rewrite Hm, H1, H2, Z.eqb_refl. reflexivity. }
  split; [|split].
  - intros event s Hd Hp. simpl. unfold on_created.
    rewrite Hd, Hp, Ht. reflexivity.
  - intros event s Hd Hp. simpl. unfold on_moved.
    rewrite Hd, Hp, Ht. reflexivity.
  - intros q. unfold qsize. simpl. rewrite length_app. simpl.
    split; [lia|reflexivity].
Qed.

Lemma stable_file_enqueued_witness :
  re_match_test (basename "/watch/test_7.txt") = true /\
  getsize (settled_world "one two") 0 "/watch/test_7.txt" = Returns 7 /\
  getsize (settled_world "one two") (0 + 2) "/watch/test_7.txt" = Returns 7 /\
  step (settled_world "one two") initial_state
    (Created 0 (file_event "/watch/test_7.txt"))
  = {| file_queue := put (Some "/watch/test_7.txt") (file_queue initial_state);
       db := db initial_state |}.
Proof.
  assert (Hm : re_match_test (basename "/watch/test_7.txt") = true)
    by reflexivity.
  assert (H1 : getsize (settled_world "one two") 0 "/watch/test_7.txt"
               = Returns 7) by reflexivity.
  assert (H2 : getsize (settled_world "one two") (0 + 2) "/watch/test_7.txt"
               = Returns 7) by reflexivity.
  destruct (stable_file_enqueued (settled_world "one two") 0
              "/watch/test_7.txt" 7 Hm H1 H2) as [Hc _].
  repeat (split; [assumption|]).
  apply Hc; reflexivity.
Defined.

(** X5.  No [OSError] leaves [try_size]: the only exceptions that escape it
    are of another kind, raised by [os.path.getsize]. *)
Theorem try_size_catches_OSError w t p q e :
  try_size w t p q = Raises e -> is_OSError e = false.
Proof.
  unfold try_size.
  destruct (negb (re_match_test (basename p))); [discriminate|].
  destruct (getsize w t p) as [s1|e1].
  - destruct (getsize w (t + 2) p) as [s2|e2].
    + destruct (negb (s1 =? s2)); discriminate.
    + destruct (is_OSError e2) eqn:E; [discriminate|].
      intros H. injection H as <-. exact E.
  - destruct (is_OSError e1) eqn:E; [discriminate|].
    intros H. injection H as <-. exact E.
Qed.

Lemma try_size_catches_OSError_witness :
  try_size null_byte_world 0 "/watch/test_1.txt" empty_queue
    = Raises {| exn_type := ValueError; exn_str := "embedded null byte" |} /\
  is_OSError {| exn_type := ValueError; exn_str := "embedded null byte" |}
    = false.
Proof.
  assert (H : try_size null_byte_world 0 "/watch/test_1.txt" empty_queue
              = Raises {| exn_type := ValueError;
                          exn_str := "embedded null byte" |})
    by reflexivity.
  split; [exact H|].
  exact (try_size_catches_OSError null_byte_world 0 "/watch/test_1.txt"
           empty_queue _ H).
Defined.

Lemma deliver_try_size w t p s :
  db (deliver (try_size w t p (file_queue s)) s) = db s /\
  exists added,
    items (file_queue (deliver (try_size w t p (file_queue s)) s))
      = items (file_queue s) ++ added /\
    Forall accepted_entry added.
Proof.
  destruct (try_size w t p (file_queue s)) as [q'|e] eqn:E; simpl.
  - split; [reflexivity|].
    destruct (try_size_cases _ _ _ _ _ E) as [-> | [-> Hm]].
    + exists []. rewrite app_nil_r. split; [reflexivity|constructor].
    + exists [Some p]. split; [reflexivity|].
      constructor; [exists p; auto|constructor].
  - split; [reflexivity|].
    exists []. rewrite app_nil_r. split; [reflexivity|constructor].
Qed.

(** X6.  The observer's events never change the table and never remove or
    reorder a queue entry: after any number of them the queue is the old
    one followed by paths whose base names the regular expression
    accepts. *)
Theorem observer_events_only_enqueue w acts : forall s,
  forallb is_observer_event acts = true ->
  db (run w acts s) = db s /\
  exists added,
    items (file_queue (run w acts s)) = items (file_queue s) ++ added /\
    Forall accepted_entry added.
Proof.
  induction acts as [|a acts IH]; intros s Hobs.
  - split; [reflexivity|]. exists []. rewrite app_nil_r.
    split; [reflexivity|constructor].
  - simpl in Hobs. apply andb_true_iff in Hobs. destruct Hobs as [Ha Hacts].
    assert (Hstep : db (step w s a) = db s /\
              exists added,
                items (file_queue (step w s a)) = items (file_queue s) ++ added /\
                Forall accepted_entry added).
    { assert (Hnone : db s = db s /\
                exists added,
                  items (file_queue s) = items (file_queue s) ++ added /\
                  Forall accepted_entry added).
      { split; [reflexivity|]. exists []. rewrite app_nil_r.
        split; [reflexivity|constructor]. }
      destruct a as [t ev|t ev|t ev|t|]; try discriminate; simpl.
      - unfold on_created. destruct (negb (is_directory ev));
          [apply deliver_try_size|exact Hnone].
      - exact Hnone.
      - unfold on_moved. destruct (negb (is_directory ev));
          [apply deliver_try_size|exact Hnone]. }
    destruct Hstep as [Hdb [add1 [Hq1 Hf1]]].
    destruct (IH (step w s a) Hacts) as [Hdb2 [add2 [Hq2 Hf2]]].
    change (run w (a :: acts) s) with (run w acts (step w s a)).
    split; [congruence|].
    exists (add1 ++ add2). rewrite Hq2, Hq1, app_assoc.
    split; [reflexivity|]. apply Forall_app. split; assumption.
Qed.

Lemma observer_events_only_enqueue_witness :
  forallb is_observer_event
    [Created 0 (file_event "/watch/test_7.txt");
     Deleted 1 (file_event "/watch/test_7.txt");
     Moved 2 (file_event "/watch/notes.txt")] = true /\
  db (run (settled_world "one two")
        [Created 0 (file_event "/watch/test_7.txt");
         Deleted 1 (file_event "/watch/test_7.txt");
         Moved 2 (file_event "/watch/notes.txt")] initial_state)
    = db initial_state.
Proof.
  split; [reflexivity|].
  apply (observer_events_only_enqueue (settled_world "one two")
           [Created 0 (file_event "/watch/test_7.txt");
            Deleted 1 (file_event "/watch/test_7.txt");
            Moved 2 (file_event "/watch/notes.txt")] initial_state).
  reflexivity.
Defined.

(** ** Invariants of the running service *)


(** A property of entries that holds of [None] and of every accepted
    path holds of all that is queued and recorded, step after step. *)
Lemma step_keeps_entries (P : option string -> Prop) w s a :
  P None ->
  (forall p, re_match_test (basename p) = true -> P (Some p)) ->
  Forall P (items (file_queue s)) ->
  Forall (fun r => P (path r)) (files_rows (db s)) ->
  Forall P (items (file_queue (step w s a))) /\
  Forall (fun r => P (path r)) (files_rows (db (step w s a))).
Proof.
  intros Hnone Hacc Hq Hd.
  assert (Hdeliver : forall p t,
             Forall P (items (file_queue
                                (deliver (try_size w t p (file_queue s)) s))) /\
             Forall (fun r => P (path r))
               (files_rows (db (deliver (try_size w t p (file_queue s)) s)))).
  { intros p t. destruct (deliver_try_size w t p s) as [Hdb [added [Hi Ha]]].
    rewrite Hdb, Hi. split; [|exact Hd].
    apply Forall_app. split; [exact Hq|].
    eapply Forall_impl; [|exact Ha].
    intros o [p' [-> Hm]]. apply Hacc. exact Hm. }
  destruct a as [t ev|t ev|t ev|t|]; simpl.
  - unfold on_created. destruct (negb (is_directory ev));
      [apply Hdeliver|simpl; split; assumption].
  - split; assumption.
  - unfold on_moved. destruct (negb (is_directory ev));
      [apply Hdeliver|simpl; split; assumption].
  - unfold worker_body, get.
    destruct (items (file_queue s)) as [|p rest] eqn:Ei;
      [rewrite Ei; split; assumption|].
    inversion Hq as [|? ? Hp Hrest]; subst.
    destruct (process w t p (db s)) as [d'|e] eqn:E; simpl.
    + assert (Hd' := process_keeps_paths P _ _ _ _ _ Hp Hd E).
      unfold task_done; simpl.
      destruct (unfinished_tasks (file_queue s) - 1 <? 0); simpl;
        split; assumption.
    + split; assumption.
  - split; [|exact Hd]. apply Forall_app. split; [exact Hq|].
    constructor; [exact Hnone|constructor].
Qed.

Lemma rows_for_nil_iff (p : string) (d : Database) :
  rows_for p d = [] <->
  Forall (fun r => path r <> Some p) (files_rows d).
Proof.
  unfold rows_for. induction (files_rows d) as [|r rs IH]; simpl.
  - split; [constructor|reflexivity].
  - destruct (path r) as [p'|] eqn:Ep; simpl.
    + destruct (String.eqb p' p) eqn:E.
      * apply String.eqb_eq in E. subst p'.
        split; [discriminate|]. intros H. inversion H; congruence.
      * apply String.eqb_neq in E. rewrite IH. split.
        -- intros H. constructor; [congruence|exact H].
        -- intros H. inversion H; assumption.
    + rewrite IH. split.
      * intros H. constructor; [congruence|exact H].
      * intros H. inversion H; assumption.
Qed.

(** X7.  A path whose base name the regular expression rejects, and for which
    the service holds neither a queue entry nor a row (a table kept from
    an earlier run included), gets neither under any sequence of events,
    worker passes and interrupts. *)
Theorem unmatched_path_stays_absent w acts p : forall s,
  re_match_test (basename p) = false ->
  ~ In (Some p) (items (file_queue s)) ->
  rows_for p (db s) = [] ->
  ~ In (Some p) (items (file_queue (run w acts s))) /\
  rows_for p (db (run w acts s)) = [].
Proof.
  intros s Hrej Hq Hd.
  set (P := fun o : option string => o <> Some p).
  assert (Hinv : forall acts s,
             Forall P (items (file_queue s)) ->
             Forall (fun r => P (path r)) (files_rows (db s)) ->
             Forall P (items (file_queue (run w acts s))) /\
             Forall (fun r => P (path r)) (files_rows (db (run w acts s)))).
  { clear s Hq Hd. intros acts0.
    induction acts0 as [|a acts0 IH]; intros s Hq Hd; [split; assumption|].
    change (run w (a :: acts0) s) with (run w acts0 (step w s a)).
    destruct (step_keeps_entries P w s a) as [Hq' Hd']; try assumption.
    - discriminate.
    - intros p' Hm. intros H. injection H as ->. congruence.
    - apply IH; assumption. }
  destruct (Hinv acts s) as [Hq' Hd'].
  - apply Forall_forall. intros o Hin Ho. subst o. exact (Hq Hin).
  - apply rows_for_nil_iff. exact Hd.
  - split.
    + intros Hin. rewrite Forall_forall in Hq'. exact (Hq' _ Hin eq_refl).
    + apply rows_for_nil_iff. exact Hd'.
Qed.

Lemma unmatched_path_stays_absent_witness :
  re_match_test (basename "/watch/notes.txt") = false /\
  ~ In (Some "/watch/notes.txt") (items (file_queue initial_state)) /\
  rows_for "/watch/notes.txt" (db initial_state) = [] /\
  rows_for "/watch/notes.txt"
    (db (run (settled_world "one two")
           [Created 0 (file_event "/watch/notes.txt"); WorkerPass 3;
            Moved 4 (file_event "/watch/notes.txt"); WorkerPass 7]
           initial_state)) = [].
Proof.
  assert (H1 : re_match_test (basename "/watch/notes.txt") = false)
    by reflexivity.
  assert (H2 : ~ In (Some "/watch/notes.txt")
                 (items (file_queue initial_state)))
    by (simpl; tauto).
  assert (H3 : rows_for "/watch/notes.txt" (db initial_state) = [])
    by reflexivity.
  repeat (split; [assumption|]).
  apply (unmatched_path_stays_absent (settled_world "one two")
           [Created 0 (file_event "/watch/notes.txt"); WorkerPass 3;
            Moved 4 (file_event "/watch/notes.txt"); WorkerPass 7]
           "/watch/notes.txt" initial_state H1 H2 H3).
Defined.


(** ** Further properties of the store *)

Lemma existsb_sql_eq_null (rs : list Row) :
  existsb (fun r' => sql_eq (path r') None) rs = false.
Proof.
  induction rs as [|r rs IH]; [reflexivity|]. simpl. rewrite IH.
  destruct (path r); reflexivity.
Qed.

(** X16.  A call of [inserting] with [None] for the path and integers that
    can be bound always adds a row, on a table with a UNIQUE [path] too:
    NULL equals no path, so neither the constraint nor the [WHERE] of
    the UPDATE can meet it. *)
Theorem inserting_null_path_appends now st ln wc err d :
  fits_int64 ln = true ->
  fits_int64 wc = true ->
  inserting now None st ln wc err d =
  Returns {| unique_path := unique_path d;
             files_rows := files_rows d ++
               [{| id := Z.max (seq d) (max_rowid (files_rows d)) + 1;
                   path := None; status := st; lines := ln;
                   word_count := wc; error := err; created_at := Some now;
                   processed_at := processed_value now st |}];
             seq := Z.max (seq d) (max_rowid (files_rows d)) + 1 |}.
Proof.
  intros _ _.
  unfold inserting, insert_files. rewrite existsb_sql_eq_null, andb_false_r.
  reflexivity.
Qed.

Lemma inserting_null_path_appends_witness :
  fits_int64 None = true /\
  fits_int64 None = true /\
  files_rows
    (match inserting "2024-05-01T10:00:11.000000" None "FAILED" None None
             (Some "expected str, bytes or os.PathLike object, not NoneType")
             (unique_table_after three_calls) with
     | Returns d => d
     | Raises _ => empty_unique_table
     end)
  = files_rows (unique_table_after three_calls) ++
      [{| id := 3; path := None; status := "FAILED"; lines := None;
          word_count := None;
          error := Some "expected str, bytes or os.PathLike object, not NoneType";
          created_at := Some "2024-05-01T10:00:11.000000";
          processed_at := None |}].
Proof.
  assert (H : fits_int64 None = true) by reflexivity.
  split; [exact H|]. split; [exact H|].
  rewrite (inserting_null_path_appends "2024-05-01T10:00:11.000000" "FAILED"
             None None
             (Some "expected str, bytes or os.PathLike object, not NoneType")
             (unique_table_after three_calls) H H).
  reflexivity.
Defined.


Lemma max_rowid_app (rs : list Row) (r : Row) :
  max_rowid (rs ++ [r]) = Z.max (max_rowid rs) (Z.max (id r) 0).
Proof.
  unfold max_rowid. induction rs as [|r0 rs IH]; simpl; [lia|].
  rewrite IH. lia.
Qed.

Lemma inserting_calls_ids (cs : list Call) : forall d,
  unique_path d = false ->
  seq d = Z.of_nat (List.length (files_rows d)) ->
  max_rowid (files_rows d) = Z.of_nat (List.length (files_rows d)) ->
  map id (files_rows d)
    = map Z.of_nat (List.seq 1 (List.length (files_rows d))) ->
  exists d',
    inserting_calls cs d = Returns d' /\
    seq d' = Z.of_nat (List.length (files_rows d) + List.length cs) /\
    map id (files_rows d')
      = map Z.of_nat
          (List.seq 1 (List.length (files_rows d) + List.length cs)).
Proof.
  induction cs as [|c cs IH]; intros d Hu Hs Hm Hids.
  - exists d. simpl. rewrite Nat.add_0_r. auto.
  - simpl. unfold inserting_call. rewrite inserting_plain by exact Hu.
    set (r := {| id := Z.max (seq d) (max_rowid (files_rows d)) + 1;
                 path := call_path c; status := call_status c;
                 lines := call_lines c; word_count := call_word_count c;
                 error := call_error c; created_at := Some (call_now c);
                 processed_at :=
                   processed_value (call_now c) (call_status c) |}).
    assert (Hid : id r = Z.of_nat (S (List.length (files_rows d))))
      by (simpl; lia).
    destruct (IH {| unique_path := false;
                    files_rows := files_rows d ++ [r];
                    seq := Z.max (seq d) (max_rowid (files_rows d)) + 1 |})
      as [d' [Hd' [Hs' Hids']]]; cbn [unique_path files_rows seq].
    + reflexivity.
    + rewrite length_app. simpl. lia.
    + rewrite max_rowid_app, length_app. fold r. rewrite Hid.
      simpl List.length. lia.
    + rewrite map_app, length_app. simpl List.length.
      rewrite Nat.add_1_r, seq_S, map_app, Hids. cbn [map]. fold r.
      rewrite Hid. reflexivity.
    + exists d'. split; [exact Hd'|].
      cbn [files_rows] in Hs', Hids'.
      rewrite length_app in Hs', Hids'. simpl List.length in Hs', Hids'.
      replace (List.length (files_rows d) + S (List.length cs))%nat
        with (List.length (files_rows d) + 1 + List.length cs)%nat by lia.
      split; assumption.
Qed.

(** X18.  On a new table the ids are handed out in order: after [n] calls of
    [inserting] whose integers can be bound the rows carry the ids
    [1 .. n], in the order of the calls, and the counter stands at
    [n]. *)
Theorem new_table_ids_consecutive (cs : list Call) :
  Forall bindable cs ->
  exists d,
    inserting_calls cs (init_database None) = Returns d /\
    map id (files_rows d) = map Z.of_nat (List.seq 1 (List.length cs)) /\
    seq d = Z.of_nat (List.length cs).
Proof.
  intros _.
  destruct (inserting_calls_ids cs (init_database None))
    as [d [Hd [Hs Hids]]]; try reflexivity.
  exists d. simpl in Hs, Hids. auto.
Qed.

Lemma new_table_ids_consecutive_witness :
  Forall bindable three_calls /\
  map id (files_rows (table_after three_calls)) = [1; 2; 3] /\
  seq (table_after three_calls) = 3.
Proof.
  assert (Hb : Forall bindable three_calls).
  { unfold three_calls, bindable.
    repeat (constructor; [split; reflexivity|]). constructor. }
  split; [exact Hb|].
  destruct (new_table_ids_consecutive three_calls Hb) as [d [Hd [Hids Hs]]].
  injection Hd as <-. split; [exact Hids|exact Hs].
Defined.

(** X19.  [ORDER BY id DESC] on any table: the rows it returns are the rows of
    the table, each as often as it is there, and no row is followed by
    one with a larger id. *)
Theorem order_by_id_desc_sorts (rs : list Row) :
  Permutation rs (order_by_id_desc rs) /\
  StronglySorted (fun a b => id b <= id a) (order_by_id_desc rs).
Proof.
  unfold order_by_id_desc. induction rs as [|r rs [IHp IHs]]; simpl.
  - split; constructor.
  - split; [|apply insert_desc_sorted; exact IHs].
    eapply Permutation_trans; [apply perm_skip; exact IHp|].
    apply insert_desc_perm.
Qed.

Lemma order_by_id_desc_length (rs : list Row) :
  List.length (order_by_id_desc rs) = List.length rs.
Proof.
  unfold order_by_id_desc. induction rs as [|r rs IH]; [reflexivity|].
  simpl. rewrite <- (Permutation_length (insert_desc_perm r _)).
  simpl. rewrite IH. reflexivity.
Qed.

(** X20.  On any table, [last_files(n)] with [0 <= n < 2^63] returns as many
    dictionaries as the smaller of [n] and the number of rows, each
    with the same seven keys in the same order; [GET /files] asks for
    20. *)
Theorem last_files_count (n : Z) (d : Database) :
  0 <= n < 2 ^ 63 ->
  exists l,
    last_files n d = Returns l /\
    List.length l = Nat.min (Z.to_nat n) (List.length (files_rows d)) /\
    Forall (fun dict =>
              map fst dict =
              ["path"; "status"; "lines"; "word_count"; "error";
               "created_at"; "processed_at"]) l.
Proof.
  intros Hn. unfold last_files, sql_limit.
  replace ((n <? - 2 ^ 63) || (2 ^ 63 <=? n)) with false
    by (symmetry; apply orb_false_iff; split;
        [apply Z.ltb_ge|apply Z.leb_gt]; lia).
  replace (n <? 0) with false by (symmetry; apply Z.ltb_ge; lia).
  eexists. split; [reflexivity|]. split.
  - rewrite length_map, length_firstn, order_by_id_desc_length. reflexivity.
  - apply Forall_map. apply Forall_forall. intros r _. reflexivity.
Qed.

Lemma last_files_count_witness :
  0 <= 20 < 2 ^ 63 /\
  exists l,
    files {| file_queue := empty_queue; db := table_after three_calls |}
      = Returns l /\
    List.length l = Nat.min (Z.to_nat 20)
                      (List.length (files_rows (table_after three_calls))).
Proof.
  assert (H : 0 <= 20 < 2 ^ 63) by (split; [lia|reflexivity]).
  split; [exact H|].
  destruct (last_files_count 20 (table_after three_calls) H)
    as [l [Hl [Hlen _]]].
  exists l. split; [exact Hl|exact Hlen].
Defined.

(** ** Further properties of the worker *)

(** On a table without the UNIQUE constraint the inner [try] of the
    worker adds one row for the entry it was given, of one of the two
    shapes. *)
Lemma process_plain w t p d :
  unique_path d = false ->
  exists r,
    process w t p d
    = Returns {| unique_path := false; files_rows := files_rows d ++ [r];
                 seq := Z.max (seq d) (max_rowid (files_rows d)) + 1 |} /\
    path r = p /\ record_shape r.
Proof.
  intros Hu. unfold process.
  destruct (count_file w t p) as [[ln wc]|e] eqn:E.
  - rewrite inserting_plain by exact Hu. eexists. split; [reflexivity|].
    split; [reflexivity|]. split; [discriminate|]. left. simpl.
    unfold count_file in E. destruct (open_text w t p) as [f|]; [|discriminate].
    rewrite count_text_no_words in E. injection E as <- <-.
    repeat split. eexists. reflexivity.
  - rewrite inserting_plain by exact Hu. eexists. split; [reflexivity|].
    split; [reflexivity|]. split; [discriminate|]. right. simpl.
    repeat split. discriminate.
Qed.

Lemma step_appends w s a :
  unique_path (db s) = false ->
  unique_path (db (step w s a)) = false /\
  exists new,
    files_rows (db (step w s a)) = files_rows (db s) ++ new /\
    Forall record_shape new /\ (List.length new <= 1)%nat.
Proof.
  intros Hu.
  assert (Hsame : forall s', db s' = db s ->
             unique_path (db s') = false /\
             exists new,
               files_rows (db s') = files_rows (db s) ++ new /\
               Forall record_shape new /\ (List.length new <= 1)%nat).
  { intros s' ->. split; [exact Hu|]. exists []. rewrite app_nil_r.
    split; [reflexivity|]. split; [constructor|simpl; lia]. }
  destruct a as [t ev|t ev|t ev|t|]; simpl.
  - apply Hsame. destruct (on_created w t ev (file_queue s)); reflexivity.
  - apply Hsame. reflexivity.
  - apply Hsame. destruct (on_moved w t ev (file_queue s)); reflexivity.
  - unfold worker_body, get.
    destruct (items (file_queue s)) as [|p rest]; [apply Hsame; reflexivity|].
    destruct (process_plain w t p (db s) Hu) as [r [-> [_ Hr]]].
    assert (Hnew : forall q,
               unique_path
                 (db {| file_queue := q;
                        db := {| unique_path := false;
                                 files_rows := files_rows (db s) ++ [r];
                                 seq := Z.max (seq (db s))
                                          (max_rowid (files_rows (db s))) + 1
                              |} |}) = false /\
               exists new,
                 files_rows (db s) ++ [r] = files_rows (db s) ++ new /\
                 Forall record_shape new /\ (List.length new <= 1)%nat).
    { intros q. split; [reflexivity|]. exists [r]. split; [reflexivity|].
      split; [constructor; [exact Hr|constructor]|simpl; lia]. }
    destruct (task_done _); apply Hnew.
  - apply Hsame. reflexivity.
Qed.

Lemma run_appends w acts : forall s,
  unique_path (db s) = false ->
  unique_path (db (run w acts s)) = false /\
  exists new,
    files_rows (db (run w acts s)) = files_rows (db s) ++ new /\
    Forall record_shape new /\ (List.length new <= List.length acts)%nat.
Proof.
  induction acts as [|a acts IH]; intros s Hu.
  - split; [exact Hu|]. exists []. rewrite app_nil_r.
    split; [reflexivity|]. split; [constructor|simpl; lia].
  - change (run w (a :: acts) s) with (run w acts (step w s a)).
    destruct (step_appends w s a Hu) as [Hu1 [new1 [Hr1 [Hs1 Hl1]]]].
    destruct (IH (step w s a) Hu1) as [Hu2 [new2 [Hr2 [Hs2 Hl2]]]].
    split; [exact Hu2|]. exists (new1 ++ new2).
    rewrite Hr2, Hr1, app_assoc. split; [reflexivity|].
    split; [apply Forall_app; split; assumption|].
    rewrite length_app. simpl. lia.
Qed.

(** X13.  The service only ever adds rows: on a table without the UNIQUE
    constraint, whatever happens, the rows that were there stay as they
    were and where they were, and at most one row per action is added
    behind them. *)
Theorem table_append_only w acts s :
  unique_path (db s) = false ->
  exists new,
    files_rows (db (run w acts s)) = files_rows (db s) ++ new /\
    (List.length new <= List.length acts)%nat.
Proof.
  intros Hu. destruct (run_appends w acts s Hu) as [_ [new [Hr [_ Hl]]]].
  exists new. split; assumption.
Qed.

Lemma table_append_only_witness :
  unique_path (db initial_state) = false /\
  exists new,
    files_rows (db (run (settled_world "one two")
                      [Created 0 (file_event "/watch/test_7.txt");
                       WorkerPass 3; Interrupt; WorkerPass 9]
                      initial_state))
      = files_rows (db initial_state) ++ new /\
    (List.length new <= 4)%nat.
Proof.
  assert (Hu : unique_path (db initial_state) = false) by reflexivity.
  split; [exact Hu|].
  exact (table_append_only (settled_world "one two")
           [Created 0 (file_event "/watch/test_7.txt");
            WorkerPass 3; Interrupt; WorkerPass 9] initial_state Hu).
Defined.

(** X14.  Every row the service has written since it started on a new table
    is a success row or a failure row: [created_at] is set; with status
    [OK] both counts are set, the word count being 0, [error] is NULL
    and [processed_at] equals [created_at]; with status [FAILED] both
    counts and [processed_at] are NULL and [error] is set. *)
Theorem rows_have_record_shape w acts :
  Forall record_shape (files_rows (db (run w acts initial_state))).
Proof.
  destruct (run_appends w acts initial_state eq_refl)
    as [_ [new [Hr [Hs _]]]].
  rewrite Hr. exact Hs.
Qed.

Lemma record_shape_status (r : Row) :
  record_shape r -> ok_or_failed (status r).
Proof. intros [_ [[H _] | [H _]]]; [left|right]; exact H. Qed.

(** X15.  What [GET /stats] reports after any sequence of events, worker
    passes and interrupts on a new table: [total = ok + failed], and
    [total] is at most the number of actions so far. *)
Theorem service_stats_add_up w acts :
  let c := fst (set_stats (run w acts initial_state)) in
  total c = ok c + failed c /\ total c <= Z.of_nat (List.length acts).
Proof.
  simpl.
  destruct (run_appends w acts initial_state eq_refl)
    as [_ [new [Hr [Hs Hl]]]].
  split.
  - apply counts_add_up. rewrite Hr. simpl.
    eapply Forall_impl; [|exact Hs]. apply record_shape_status.
  - rewrite Hr. simpl. lia.
Qed.





(** X4.  When either measurement of the size fails with an [OSError] (the
    file is gone, or cannot be read), [try_size] returns normally and
    the queue is as it was: nothing is put, nothing escapes. *)
Theorem vanished_file_abandoned w t p q e :
  is_OSError e = true ->
  getsize w t p = Raises e \/
  (exists s1, getsize w t p = Returns s1 /\ getsize w (t + 2) p = Raises e) ->
  try_size w t p q = Returns q.
Proof.
  intros He H. unfold try_size.
  destruct (negb (re_match_test (basename p))); [reflexivity|].
  destruct H as [H | [s1 [H1 H2]]].
  - rewrite H, He. reflexivity.
  - rewrite H1, H2, He. reflexivity.
Qed.

Lemma vanished_file_abandoned_witness :
  is_OSError {| exn_type := OSError;
                exn_str := "[Errno 2] No such file or directory" |} = true /\
  getsize vanishing_world 0 "/watch/test_4.txt" = Returns 4 /\
  getsize vanishing_world (0 + 2) "/watch/test_4.txt"
    = Raises {| exn_type := OSError;
                exn_str := "[Errno 2] No such file or directory" |} /\
  try_size vanishing_world 0 "/watch/test_4.txt" empty_queue
    = Returns empty_queue.
Proof.
  assert (He : is_OSError
                 {| exn_type := OSError;
                    exn_str := "[Errno 2] No such file or directory" |}
               = true) by reflexivity.
  assert (H1 : getsize vanishing_world 0 "/watch/test_4.txt" = Returns 4)
    by reflexivity.
  assert (H2 : getsize vanishing_world (0 + 2) "/watch/test_4.txt"
               = Raises {| exn_type := OSError;
                           exn_str := "[Errno 2] No such file or directory" |})
    by reflexivity.
  repeat (split; [assumption|]).
  apply (vanished_file_abandoned vanishing_world 0 "/watch/test_4.txt"
           empty_queue _ He).
  right. exists 4. split; assumption.
Defined.

Lemma last_files_negative_limit_witness :
  - 2 ^ 63 <= -1 < 0 /\
  last_files (-1) (table_after three_calls)
  = Returns (map row_dict
               (order_by_id_desc (files_rows (table_after three_calls)))).
Proof.
  assert (H : - 2 ^ 63 <= -1 < 0) by (split; [discriminate|reflexivity]).
  split; [exact H|].
  exact (last_files_negative_limit (-1) (table_after three_calls) H).
Defined.
